(** * snowflake_objects.py: generation of the Snowflake pipeline

    A shallow embedding of the module-level script [snowflake_objects.py].
    The script reads a configuration file, a connection, a description file
    and Airflow variables, creates one DAG object and then walks ten fixed
    subdirectories, creating one [SnowflakeOperator] per [.sql] file and
    wiring the operators into a chain.

    - Python [str] values are [string]s over the 8-bit characters of
      [ascii]; [str.upper] turns [a]-[z] into [A]-[Z] and leaves the other
      characters alone. The only use of [upper] is the search for [USE]
      (line 98).
    - A Python [dict] is an association list kept in insertion order.
    - What the script reads (files, connection registry, variables, clock)
      is a record [Env]; an absent or unreadable file is [None].
    - What the script builds on the Airflow side is a record [DAG]; an
      operator is referred to by its position in creation order, which
      stands for the identity of the Python object. [a >> b] on operators
      adds a link; on task groups it notes the relation of the groups and
      links every leaf of the first group to every root of the second.
      The checks Airflow makes on identifiers are no part of the script and
      are left out.
    - An exception aborts the script and leaves the objects built so far
      as they are: the builder monad returns the state next to the error. *)

From Stdlib Require Import String Ascii List Arith Bool Lia ZArith.
From Stdlib Require Import Sorting.Sorted Sorting.Permutation.
From Stdlib Require Import Structures.OrdersEx.
Import ListNotations.
Local Open Scope list_scope.
Local Open Scope string_scope.

(** ** Python string operations used by the script *)

Module PyStr.

(** The one-character string a Python source writes as a backslash
    followed by [n]. *)
Definition newline : string := String (ascii_of_nat 10) EmptyString.

Definition upper_char (c : ascii) : ascii :=
  let n := nat_of_ascii c in
  if ((97 <=? n) && (n <=? 122))%nat then ascii_of_nat (n - 32) else c.

(** [s.upper()] *)
Fixpoint upper (s : string) : string :=
  match s with
  | EmptyString => EmptyString
  | String c r => String (upper_char c) (upper r)
  end.

(** [needle in hay] *)
Fixpoint str_in (needle hay : string) : bool :=
  match hay with
  | EmptyString => prefix needle hay
  | String _ r => prefix needle hay || str_in needle r
  end.

(** [s.endswith(suffix)] *)
Definition endswith (s suffix : string) : bool :=
  (String.length suffix <=? String.length s)%nat
  && (substring (String.length s - String.length suffix)
                (String.length suffix) s =? suffix).

(** [s.replace(old, new)] for a non-empty [old]: a scan from the left that
    replaces every occurrence which does not overlap an earlier one.
    [skip] counts the characters of a matched occurrence still to drop. *)
Fixpoint replace_from (old new : string) (skip : nat) (s : string) : string :=
  match s with
  | EmptyString => EmptyString
  | String c r =>
      match skip with
      | S k => replace_from old new k r
      | O =>
          if prefix old s
          then new ++ replace_from old new (String.length old - 1) r
          else String c (replace_from old new 0 r)
      end
  end.

(** With an empty [old] Python puts [new] before every character and at
    the end. *)
Fixpoint intersperse_all (new s : string) : string :=
  match s with
  | EmptyString => new
  | String c r => new ++ String c (intersperse_all new r)
  end.

Definition replace (s old new : string) : string :=
  match old with
  | EmptyString => intersperse_all new s
  | _ => replace_from old new 0 s
  end.

(** [sorted(l)] on a list of [str]: the order of [str] is the
    lexicographic order of the code points. *)
Fixpoint insert_sorted (x : string) (l : list string) : list string :=
  match l with
  | [] => [x]
  | y :: r => if String.leb x y then x :: l else y :: insert_sorted x r
  end.

Fixpoint sorted (l : list string) : list string :=
  match l with
  | [] => []
  | x :: r => insert_sorted x (sorted r)
  end.

End PyStr.

(** ** Python dictionaries, in insertion order *)

Module PyDict.

Definition dict := list (string * string).

(** [d[k] = v]: an existing key keeps its place and takes the new value,
    a new key goes to the end. *)
Fixpoint set (k v : string) (d : dict) : dict :=
  match d with
  | [] => [(k, v)]
  | (k', v') :: r =>
      if (k =? k')%string then (k, v) :: r else (k', v') :: set k v r
  end.

Fixpoint get (k : string) (d : dict) : option string :=
  match d with
  | [] => None
  | (k', v') :: r => if (k =? k')%string then Some v' else get k r
  end.

Definition keys (d : dict) : list string := map fst d.

(** [{**d, **e}] continued from [d]: the entries of [e] are set one
    after the other. *)
Definition update (d e : dict) : dict :=
  fold_left (fun acc kv => set (fst kv) (snd kv) acc) e d.

End PyDict.

(** ** What the script reads *)

(** The mapping [yaml.safe_load] returns; a key the file does not give is
    [None] ([config.get(key, default)] then yields the default). *)
Record Config := {
  cfg_SNOWFLAKE_CONN_ID : option string;
  cfg_OWNER : option string;
  cfg_TAGS : option (list string);
  cfg_PARAMS : option (list string)
}.

Inductive ConfigFile :=
| ConfigAbsent                    (* [open] raises *)
| ConfigMalformed                 (* [yaml.safe_load] raises, or yields no mapping *)
| ConfigLoaded (config : Config).

(** A stored connection; [extra_database] is [extra_dejson['database']]
    when the key is there. *)
Record Connection := { extra_database : option string }.

Record Env := {
  parent_dir_name : string;
  directory_name : string;
  snowflake_ci_yml : ConfigFile;
  connections : string -> option Connection;   (* [BaseHook.get_connection] *)
  readme_md : option string;
  variables : string -> option string;         (* Airflow variables *)
  listdir : string -> option (list string);    (* [None]: not a directory *)
  sql_text : string -> string -> option string; (* [None]: open or read fails *)
  today : Z                                    (* the day [days_ago] counts from *)
}.

(** The exceptions that end the script. *)
Inductive Error :=
| ConfigNotFound
| ConfigInvalid
| ConnectionNotFound (conn_id : string)
| DatabaseKeyMissing
| ReadmeNotReadable
| SqlNotReadable (subdir file : string).

(** ** What the script builds *)

(** A [SnowflakeOperator] as the script creates it. [op_group] is the task
    group open at creation; [op_file] remembers the file the operator was
    made from (it is not an attribute of the Airflow object). *)
Record Operator := {
  op_group : string;
  op_file : string;
  task_id : string;
  sql : string;
  snowflake_conn_id : string;
  params : PyDict.dict
}.

Definition task_ref := nat.

Record DAG := {
  dag_id : string;
  default_owner : string;
  default_conn_id : string;
  description : string;
  start_date : Z;
  tags : list string;
  doc_md : string;
  dag_groups : list string;                 (* the task groups created *)
  tasks : list Operator;                    (* in creation order *)
  edges : list (task_ref * task_ref);       (* upstream, downstream *)
  group_edges : list (string * string)      (* upstream group, downstream group *)
}.

Definition with_groups (d : DAG) (gs : list string) : DAG :=
  {| dag_id := dag_id d; default_owner := default_owner d;
     default_conn_id := default_conn_id d; description := description d;
     start_date := start_date d; tags := tags d; doc_md := doc_md d;
     dag_groups := gs; tasks := tasks d; edges := edges d;
     group_edges := group_edges d |}.

Definition with_tasks (d : DAG) (ts : list Operator) : DAG :=
  {| dag_id := dag_id d; default_owner := default_owner d;
     default_conn_id := default_conn_id d; description := description d;
     start_date := start_date d; tags := tags d; doc_md := doc_md d;
     dag_groups := dag_groups d; tasks := ts; edges := edges d;
     group_edges := group_edges d |}.

Definition with_edges (d : DAG) (es : list (task_ref * task_ref))
    (ges : list (string * string)) : DAG :=
  {| dag_id := dag_id d; default_owner := default_owner d;
     default_conn_id := default_conn_id d; description := description d;
     start_date := start_date d; tags := tags d; doc_md := doc_md d;
     dag_groups := dag_groups d; tasks := tasks d; edges := es;
     group_edges := ges |}.

(** ** The builder monad: state and exceptions *)

Definition Build (A : Type) : Type := DAG -> (Error + A) * DAG.

Definition ret {A} (a : A) : Build A := fun d => (inr a, d).

Definition raise {A} (err : Error) : Build A := fun d => (inl err, d).

Definition bind {A B} (c : Build A) (k : A -> Build B) : Build B :=
  fun d =>
    match c d with
    | (inl err, d') => (inl err, d')
    | (inr a, d') => k a d'
    end.

Notation "x <- c ;; k" := (bind c (fun x => k))
  (at level 61, c at next level, right associativity).
Notation "c ;;; k" := (bind c (fun _ => k))
  (at level 61, right associativity).

(** [for x in l: s = body(s, x)] *)
Fixpoint for_each {A S : Type} (l : list A) (body : S -> A -> Build S) (s : S)
    : Build S :=
  match l with
  | [] => ret s
  | x :: r => s' <- body s x ;; for_each r body s'
  end.

(** ** The Airflow operations the script calls *)

Module Airflow.

(** [with TaskGroup(group_id=g, dag=dag)] *)
Definition TaskGroup (g : string) : Build unit :=
  fun d => (inr tt, with_groups d (dag_groups d ++ [g])).

(** [SnowflakeOperator(..., dag=dag)]: the operator joins the DAG. *)
Definition SnowflakeOperator (op : Operator) : Build task_ref :=
  fun d => (inr (List.length (tasks d)), with_tasks d (tasks d ++ [op])).

(** [a >> b] on two operators *)
Definition set_downstream (a b : task_ref) : Build unit :=
  fun d => (inr tt, with_edges d (edges d ++ [(a, b)]) (group_edges d)).

Fixpoint members_from (g : string) (i : nat) (ts : list Operator) : list task_ref :=
  match ts with
  | [] => []
  | t :: r =>
      if (op_group t =? g)%string
      then i :: members_from g (S i) r
      else members_from g (S i) r
  end.

(** The operators of a task group. *)
Definition members (g : string) (d : DAG) : list task_ref :=
  members_from g 0 (tasks d).

Definition mem (i : task_ref) (l : list task_ref) : bool :=
  existsb (Nat.eqb i) l.

(** The operators of the group with nothing downstream inside the group. *)
Definition leaves (g : string) (d : DAG) : list task_ref :=
  filter (fun i =>
            negb (existsb (fun ab => (fst ab =? i)%nat && mem (snd ab) (members g d))
                          (edges d)))
         (members g d).

(** The operators of the group with nothing upstream inside the group. *)
Definition roots (g : string) (d : DAG) : list task_ref :=
  filter (fun i =>
            negb (existsb (fun ab => (snd ab =? i)%nat && mem (fst ab) (members g d))
                          (edges d)))
         (members g d).

(** [g1 >> g2] on two task groups: the relation between the groups is
    noted, and every leaf of [g1] gets every root of [g2] downstream. *)
Definition group_set_downstream (g1 g2 : string) : Build unit :=
  fun d => (inr tt,
            with_edges d (edges d ++ list_prod (leaves g1 d) (roots g2 d))
                       (group_edges d ++ [(g1, g2)])).

End Airflow.

(** ** The script *)

Definition get_default {A} (o : option A) (default : A) : A :=
  match o with Some a => a | None => default end.

(** [Variable.get(key, default_var=...)] *)
Definition Variable_get (e : Env) (key default_var : string) : string :=
  get_default (variables e key) default_var.

(** The values bound before the DAG is created (lines 11-46). *)
Record Prepared := {
  dynamic_dag_id : string;
  SNOWFLAKE_CONN_ID : string;
  OWNER : string;
  TAGS : list string;
  SNOWFLAKE_SCHEMA : string;
  readme_content : string;
  resolved_params : PyDict.dict
}.

(** [params = {}; for param_key in ...: params[param_key] = Variable.get(...)] *)
Definition store_param (e : Env) (params : PyDict.dict) (param_key : string)
    : PyDict.dict :=
  PyDict.set param_key (Variable_get e param_key "") params.

Definition resolve_params (e : Env) (param_keys : list string) : PyDict.dict :=
  fold_left (store_param e) param_keys [].

Definition prepare (e : Env) : Error + Prepared :=
  match snowflake_ci_yml e with
  | ConfigAbsent => inl ConfigNotFound
  | ConfigMalformed => inl ConfigInvalid
  | ConfigLoaded config =>
      let conn_id := get_default (cfg_SNOWFLAKE_CONN_ID config) "DEFAULT_CONNECTION" in
      let owner := get_default (cfg_OWNER config) "DEFAULT_OWNER" in
      let tags := (get_default (cfg_TAGS config) [] ++ [owner])%list in
      match connections e conn_id with
      | None => inl (ConnectionNotFound conn_id)
      | Some conn =>
          match extra_database conn with
          | None => inl DatabaseKeyMissing
          | Some database =>
              match readme_md e with
              | None => inl ReadmeNotReadable
              | Some readme =>
                  inr {| dynamic_dag_id := parent_dir_name e ++ "_" ++ directory_name e;
                         SNOWFLAKE_CONN_ID := conn_id;
                         OWNER := owner;
                         TAGS := tags;
                         SNOWFLAKE_SCHEMA := database ++ "." ++ directory_name e;
                         readme_content := readme;
                         resolved_params :=
                           resolve_params e (get_default (cfg_PARAMS config) []) |}
              end
          end
      end
  end.

(** [dag = DAG(...)] (lines 49-58) *)
Definition new_dag (e : Env) (p : Prepared) : DAG :=
  {| dag_id := dynamic_dag_id p;
     default_owner := OWNER p;
     default_conn_id := SNOWFLAKE_CONN_ID p;
     description := "Run SQL files in Snowflake, organized by subdirectories";
     start_date := (today e - 1)%Z;
     tags := TAGS p;
     doc_md := readme_content p;
     dag_groups := [];
     tasks := [];
     edges := [];
     group_edges := [] |}.

Definition target_subdirs : list string :=
  [ "file_formats"; "stages"; "tables"; "views"; "sequences";
    "streams"; "functions"; "procedures"; "tasks"; "dml" ].

(** Lines 98-99: the text handed to the operator. *)
Definition inject_schema (schema sql_query : string) : string :=
  if negb (PyStr.str_in "USE" (PyStr.upper sql_query))
  then "USE " ++ schema ++ ";" ++ PyStr.newline ++ sql_query
  else sql_query.

(** Line 105: [{"schema_name": SNOWFLAKE_SCHEMA, **params}] *)
Definition merged_params (schema : string) (params : PyDict.dict) : PyDict.dict :=
  PyDict.update [("schema_name", schema)] params.

(** Line 92 *)
Definition make_task_id (file : string) : string := PyStr.replace file ".sql" "".

Definition is_sql (file : string) : bool := PyStr.endswith file ".sql".

Definition make_operator (p : Prepared) (subdir_name file sql_query : string)
    : Operator :=
  {| op_group := subdir_name;
     op_file := file;
     task_id := make_task_id file;
     sql := inject_schema (SNOWFLAKE_SCHEMA p) sql_query;
     snowflake_conn_id := SNOWFLAKE_CONN_ID p;
     params := merged_params (SNOWFLAKE_SCHEMA p) (resolved_params p) |}.

Definition read_sql (e : Env) (subdir_name file : string) : Build string :=
  match sql_text e subdir_name file with
  | Some text => ret text
  | None => raise (SqlNotReadable subdir_name file)
  end.

(** The body of the loop over the files (lines 90-113); the loop carries
    [prev_task] and [n_tasks]. *)
Definition file_step (e : Env) (p : Prepared) (subdir_name : string)
    (st : option task_ref * nat) (file : string) : Build (option task_ref * nat) :=
  let (prev_task, n_tasks) := st in
  if is_sql file then
    sql_query <- read_sql e subdir_name file ;;
    task <- Airflow.SnowflakeOperator (make_operator p subdir_name file sql_query) ;;
    match prev_task with
    | Some prev => Airflow.set_downstream prev task
    | None => ret tt
    end ;;;
    ret (Some task, S n_tasks)
  else ret st.

(** The body of the loop over the subdirectories (lines 78-123); the loop
    carries [prev_group]. The dictionary [task_groups] of the script is
    written and never read, and is left out. *)
Definition subdir_step (e : Env) (p : Prepared)
    (prev_group : option string) (subdir_name : string) : Build (option string) :=
  match listdir e subdir_name with
  | None => ret prev_group
  | Some entries =>
      Airflow.TaskGroup subdir_name ;;;
      st <- for_each (PyStr.sorted entries) (file_step e p subdir_name) (None, 0) ;;
      if (snd st <? 1)%nat then ret prev_group
      else
        match prev_group with
        | Some prev => Airflow.group_set_downstream prev subdir_name
        | None => ret tt
        end ;;;
        ret (Some subdir_name)
  end.

(** What a run leaves: how it ended, and the DAG object if one was created. *)
Record Outcome := {
  result : Error + unit;
  registered : option DAG
}.

Definition generate (e : Env) : Outcome :=
  match prepare e with
  | inl err => {| result := inl err; registered := None |}
  | inr p =>
      match for_each target_subdirs (subdir_step e p) None (new_dag e p) with
      | (inl err, d) => {| result := inl err; registered := Some d |}
      | (inr _, d) => {| result := inr tt; registered := Some d |}
      end
  end.

(** ** Notions the properties are stated with *)

(** The order of [str]: [a <= b]. *)
Definition str_le (a b : string) : Prop := String.leb a b = true.

(** The [.sql] entries of a category's directory, as the directory lists
    them; none when the directory is absent. *)
Definition sql_entries (e : Env) (c : string) : list string :=
  filter is_sql (get_default (listdir e c) []).

(** The same entries in the order the script visits them. *)
Definition sql_files (e : Env) (c : string) : list string :=
  filter is_sql (PyStr.sorted (get_default (listdir e c) [])).

(** The files the script visits, category by category. *)
Definition plan_of (e : Env) (cs : list string) : list (string * string) :=
  flat_map (fun c => map (pair c) (sql_files e c)) cs.

Definition plan (e : Env) : list (string * string) := plan_of e target_subdirs.

Definition has_files (e : Env) (c : string) : bool :=
  match sql_files e c with [] => false | _ :: _ => true end.

(** The categories that yield at least one unit, in the fixed order. *)
Definition nonempty_categories (e : Env) : list string :=
  filter (has_files e) target_subdirs.

(** The pairs of neighbours of a list. *)
Fixpoint adjacent {A : Type} (l : list A) : list (A * A) :=
  match l with
  | a :: r => match r with b :: _ => (a, b) :: adjacent r | [] => [] end
  | [] => []
  end.

(** The pairs [(x, y)] with [x] before [y] in the list. *)
Fixpoint ordered_pairs {A : Type} (l : list A) : list (A * A) :=
  match l with
  | [] => []
  | x :: r => (map (pair x) r ++ ordered_pairs r)%list
  end.

Definition unit_name (t : Operator) : string * string := (op_group t, op_file t).

(** The units a run has put on the DAG when it ends. *)
Definition units_registered (o : Outcome) : list Operator :=
  match registered o with
  | Some d => tasks d
  | None => []
  end.

Definition first_of (g : string) (d : DAG) : option task_ref := hd_error (Airflow.members g d).

Definition last_of (g : string) (d : DAG) : option task_ref :=
  hd_error (rev (Airflow.members g d)).

(** *** The chain *)

(** The file of a unit can be read. *)
Definition readable (e : Env) (cf : string * string) : Prop :=
  sql_text e (fst cf) (snd cf) <> None.

(** The operator the script makes for a file of a category. *)
Definition operator_of (e : Env) (p : Prepared) (cf : string * string) : Operator :=
  make_operator p (fst cf) (snd cf) (get_default (sql_text e (fst cf) (snd cf)) "").

(** The links [b -> b+1 -> ... -> b+n-1]. *)
Definition chain (b n : nat) : list (task_ref * task_ref) :=
  map (fun i => (i, S i)) (seq b (n - 1)).

(** The links are those of one chain through the operators [0 .. n-1], in
    creation order. *)
Definition linear (n : nat) (es : list (task_ref * task_ref)) : Prop :=
  forall x y, In (x, y) es <-> y = S x /\ y < n.

Definition last_opt {A : Type} (l : list A) : option A := hd_error (rev l).

(** *** Invariants of the two loops *)

(** The operators made for the files [fs] of category [c]. *)
Definition operators_of (e : Env) (p : Prepared) (c : string) (fs : list string)
    : list Operator :=
  map (operator_of e p) (map (pair c) fs).

(** The loop over the files of [c], entered with operators [T0] and links
    [E0] on the DAG, after the entries [done]. *)
Definition file_inv (e : Env) (p : Prepared) (c : string) (T0 : list Operator)
    (E0 : list (task_ref * task_ref)) (GE0 : list (string * string))
    (done : list string) (st : option task_ref * nat) (d : DAG) : Prop :=
  tasks d = (T0 ++ operators_of e p c (filter is_sql done))%list
  /\ Forall (readable e) (map (pair c) (filter is_sql done))
  /\ snd st = List.length (filter is_sql done)
  /\ fst st = (if (snd st =? 0)%nat then None else Some (List.length (tasks d) - 1))
  /\ edges d = (E0 ++ chain (List.length T0) (snd st))%list
  /\ group_edges d = GE0.

(** The same loop, stopped by the entry [x]. *)
Definition file_fail (e : Env) (p : Prepared) (c : string) (T0 : list Operator)
    (done : list string) (x : string) (err : Error) (d : DAG) : Prop :=
  err = SqlNotReadable c x
  /\ is_sql x = true
  /\ sql_text e c x = None
  /\ tasks d = (T0 ++ operators_of e p c (filter is_sql done))%list
  /\ Forall (readable e) (map (pair c) (filter is_sql done)).

(** The loop over the categories, after the categories [done]. *)
Definition subdir_inv (e : Env) (p : Prepared)
    (done : list string) (prev_group : option string) (d : DAG) : Prop :=
  tasks d = map (operator_of e p) (plan_of e done)
  /\ Forall (readable e) (plan_of e done)
  /\ linear (List.length (tasks d)) (edges d)
  /\ group_edges d = adjacent (filter (has_files e) done)
  /\ prev_group = last_opt (filter (has_files e) done)
  /\ match prev_group with
     | Some g =>
         exists a, a < List.length (tasks d)
                   /\ Airflow.members g d = seq a (List.length (tasks d) - a)
     | None => True
     end.

(** The same loop, stopped in category [c]. *)
Definition subdir_fail (e : Env) (p : Prepared)
    (done : list string) (c : string) (err : Error) (d : DAG) : Prop :=
  exists pre f post,
    sql_files e c = (pre ++ f :: post)%list
    /\ err = SqlNotReadable c f
    /\ sql_text e c f = None
    /\ tasks d = map (operator_of e p) (plan_of e done ++ map (pair c) pre)
    /\ Forall (readable e) (plan_of e done ++ map (pair c) pre).

(** *** Schema-selection statements *)

Definition is_letter (lower upper c : ascii) : bool :=
  (c =? lower)%char || (c =? upper)%char.


(** The letters of the keyword, in any case, at the head of [s]. *)
Definition use_letters_at (s : string) : bool :=
  match s with
  | String a (String b (String c _)) =>
      is_letter "u" "U" a && is_letter "s" "S" b && is_letter "e" "E" c
  | _ => false
  end.


Fixpoint somewhere (P : string -> bool) (s : string) : bool :=
  P s || match s with EmptyString => false | String _ r => somewhere P r end.

(** The text has the three letters somewhere, inside a longer word or not. *)
Definition mentions_use (text : string) : bool := somewhere use_letters_at text.


(** The statement the script writes for a schema. *)
Definition use_statement (schema : string) : string :=
  "USE " ++ schema ++ ";" ++ PyStr.newline.

(** *** Dictionaries *)

(** The entries whose key is not [s]. *)
Definition other_than (s : string) (kv : string * string) : bool :=
  negb (fst kv =? s).

(** *** Identifiers *)

(** The file name without its extension: the last four characters dropped. *)
Definition without_extension (file : string) : string :=
  substring 0 (String.length file - 4) file.

(** *** Inputs of two runs *)

Definition same_listing (l1 l2 : option (list string)) : Prop :=
  match l1, l2 with
  | Some a, Some b => Permutation a b
  | None, None => True
  | _, _ => False
  end.

(** Two runs read the same files, configuration, connection registry and
    variables; the order in which a directory lists its entries and the
    day of the run are free. *)
Record same_inputs (e1 e2 : Env) : Prop := {
  same_parent : parent_dir_name e1 = parent_dir_name e2;
  same_directory : directory_name e1 = directory_name e2;
  same_config : snowflake_ci_yml e1 = snowflake_ci_yml e2;
  same_connections : forall c, connections e1 c = connections e2 c;
  same_readme : readme_md e1 = readme_md e2;
  same_variables : forall k, variables e1 k = variables e2 k;
  same_dirs : forall c, same_listing (listdir e1 c) (listdir e2 c);
  same_sql : forall c f, sql_text e1 c f = sql_text e2 c f
}.

(** The DAG without the date that depends on the day of the run. *)
Definition without_clock (d : DAG) : DAG :=
  {| dag_id := dag_id d; default_owner := default_owner d;
     default_conn_id := default_conn_id d; description := description d;
     start_date := 0%Z; tags := tags d; doc_md := doc_md d;
     dag_groups := dag_groups d; tasks := tasks d; edges := edges d;
     group_edges := group_edges d |}.

(** A step of the builder that neither reads nor writes that date. *)
Definition clock_free {A : Type} (c : Build A) : Prop :=
  forall d, c (without_clock d) = (fst (c d), without_clock (snd (c d))).

(** ** Concrete inputs *)

Module Examples.

Definition config0 : Config :=
  {| cfg_SNOWFLAKE_CONN_ID := Some "sf"; cfg_OWNER := None;
     cfg_TAGS := None; cfg_PARAMS := Some ["p1"; "p2"] |}.

Definition registry (c : string) : option Connection :=
  if c =? "sf" then Some {| extra_database := Some "DB" |} else None.

(** Category [tables] holds [2.sql] and [1.sql] (listed in that order)
    and a text file, category [views] holds [x.sql]; [stages] is an empty
    directory and the other directories are absent. *)
Definition env0 : Env :=
  {| parent_dir_name := "proj";
     directory_name := "SALES";
     snowflake_ci_yml := ConfigLoaded config0;
     connections := registry;
     readme_md := Some "docs";
     variables := fun k => if k =? "p1" then Some "v1" else None;
     listdir := fun s =>
       if s =? "tables" then Some ["2.sql"; "notes.txt"; "1.sql"]
       else if s =? "views" then Some ["x.sql"]
       else if s =? "stages" then Some []
       else None;
     sql_text := fun s f =>
       if f =? "x.sql" then Some "use schema other; select 1" else Some "select 1";
     today := 100 |}.

Definition with_layout (e : Env) (dirs : string -> option (list string))
    (texts : string -> string -> option string) : Env :=
  {| parent_dir_name := parent_dir_name e;
     directory_name := directory_name e;
     snowflake_ci_yml := snowflake_ci_yml e;
     connections := connections e;
     readme_md := readme_md e;
     variables := variables e;
     listdir := dirs;
     sql_text := texts;
     today := today e |}.

(** Categories [a] with [2.sql], [1.sql] and [b] with [x.sql]. *)
Definition env_two (a b : string) : Env :=
  with_layout env0
    (fun s => if s =? a then Some ["2.sql"; "1.sql"]
              else if s =? b then Some ["x.sql"] else None)
    (fun _ _ => Some "select 1").

Definition env_AB : Env := env_two "tables" "views".

(** [stages] holds [s.sql], [tables] holds no [.sql] file, [views] holds
    [x.sql]; the other directories are absent. *)
Definition env_gap : Env :=
  with_layout env0
    (fun s => if s =? "stages" then Some ["s.sql"]
              else if s =? "tables" then Some ["notes.txt"]
              else if s =? "views" then Some ["x.sql"] else None)
    (fun _ _ => Some "select 1").

(** As [env0], on another day and with the entries of [tables] listed
    in another order. *)
Definition env0_later : Env :=
  {| parent_dir_name := "proj";
     directory_name := "SALES";
     snowflake_ci_yml := ConfigLoaded config0;
     connections := registry;
     readme_md := Some "docs";
     variables := fun k => if k =? "p1" then Some "v1" else None;
     listdir := fun s =>
       if s =? "tables" then Some ["1.sql"; "2.sql"; "notes.txt"]
       else if s =? "views" then Some ["x.sql"]
       else if s =? "stages" then Some []
       else None;
     sql_text := fun s f =>
       if f =? "x.sql" then Some "use schema other; select 1" else Some "select 1";
     today := 250 |}.


(** No description file. *)
Definition env_no_readme : Env :=
  {| parent_dir_name := "proj";
     directory_name := "SALES";
     snowflake_ci_yml := ConfigLoaded config0;
     connections := registry;
     readme_md := None;
     variables := variables env0;
     listdir := listdir env0;
     sql_text := sql_text env0;
     today := 100 |}.

(** The configuration declares [schema_name] itself as a parameter. *)
Definition env_collision : Env :=
  {| parent_dir_name := "proj";
     directory_name := "SALES";
     snowflake_ci_yml :=
       ConfigLoaded {| cfg_SNOWFLAKE_CONN_ID := Some "sf"; cfg_OWNER := None;
                       cfg_TAGS := None; cfg_PARAMS := Some ["p1"; "schema_name"] |};
     connections := registry;
     readme_md := Some "docs";
     variables := fun k => if k =? "schema_name" then Some "OTHER" else None;
     listdir := listdir env0;
     sql_text := sql_text env0;
     today := 100 |}.


(** [tables] holds one file with [.sql] twice in its name. *)
Definition env_double_suffix : Env :=
  with_layout env0
    (fun s => if s =? "tables" then Some ["report.sql.sql"] else None)
    (fun _ _ => Some "select 1").

Definition no_operator : Operator :=
  {| op_group := ""; op_file := ""; task_id := ""; sql := "";
     snowflake_conn_id := ""; params := [] |}.

Definition no_prepared : Prepared :=
  {| dynamic_dag_id := ""; SNOWFLAKE_CONN_ID := ""; OWNER := ""; TAGS := [];
     SNOWFLAKE_SCHEMA := ""; readme_content := ""; resolved_params := [] |}.

(** The DAG a run leaves, and its [i]-th operator. *)
Definition the_dag (e : Env) : DAG :=
  match registered (generate e) with
  | Some d => d
  | None => new_dag e no_prepared
  end.

Definition the_unit (e : Env) (i : nat) : Operator :=
  nth i (tasks (the_dag e)) no_operator.

End Examples.

(** ** Notions for the DAG as a whole *)

(** The attributes the DAG is given at its creation (lines 49-58). *)
Definition header (d : DAG)
    : string * string * string * string * Z * list string * string :=
  (dag_id d, default_owner d, default_conn_id d, description d,
   start_date d, tags d, doc_md d).

(** A step of the builder that leaves those attributes alone. *)
Definition keeps_header {A : Type} (c : Build A) : Prop :=
  forall d, header (snd (c d)) = header d.

(** A step of the builder that creates no task group. *)
Definition keeps_groups {A : Type} (c : Build A) : Prop :=
  forall d, dag_groups (snd (c d)) = dag_groups d.

(** [os.path.isdir] on the directory of a category. *)
Definition is_dir (e : Env) (c : string) : bool :=
  match listdir e c with Some _ => true | None => false end.

(** The loop over the categories, seen from the task groups: after the
    categories [done], and stopped in category [c]. *)
Definition groups_inv (e : Env) (done : list string) (prev_group : option string)
    (d : DAG) : Prop :=
  dag_groups d = filter (is_dir e) done.

Definition groups_fail (e : Env) (done : list string) (c : string) (err : Error)
    (d : DAG) : Prop :=
  (exists f, err = SqlNotReadable c f)
  /\ is_dir e c = true
  /\ dag_groups d = (filter (is_dir e) done ++ [c])%list.

(** The value a declared parameter gets (line 46). *)
Definition resolved_entry (e : Env) (param_key : string) : string * string :=
  (param_key, get_default (variables e param_key) "").

(** ** Further concrete inputs *)

Module MoreExamples.



End MoreExamples.

(** * Properties *)

(** ** Strings *)

Section StringFacts.

Lemma upper_char_U (c : ascii) :
  (PyStr.upper_char c =? "U")%char = is_letter "u" "U" c.
Proof. destruct c as [[] [] [] [] [] [] [] []]; reflexivity. Qed.

Lemma upper_char_S (c : ascii) :
  (PyStr.upper_char c =? "S")%char = is_letter "s" "S" c.
Proof. destruct c as [[] [] [] [] [] [] [] []]; reflexivity. Qed.

Lemma upper_char_E (c : ascii) :
  (PyStr.upper_char c =? "E")%char = is_letter "e" "E" c.
Proof. destruct c as [[] [] [] [] [] [] [] []]; reflexivity. Qed.

Lemma append_assoc (a b c : string) : (a ++ b) ++ c = a ++ (b ++ c).
Proof. induction a as [|x a IH]; simpl; [reflexivity | now rewrite IH]. Qed.

Lemma prefix_nil (s : string) : prefix "" s = true.
Proof. now destruct s. Qed.

Lemma prefix_cons (a b : ascii) (s1 s2 : string) :
  prefix (String a s1) (String b s2) = (b =? a)%char && prefix s1 s2.
Proof.
  simpl. destruct (ascii_dec a b) as [->|Hne].
  - now rewrite Ascii.eqb_refl.
  - destruct (Ascii.eqb_spec b a) as [->|_]; [contradiction | reflexivity].
Qed.

Lemma prefix_USE_upper (s : string) :
  prefix "USE" (PyStr.upper s) = use_letters_at s.
Proof.
  destruct s as [|a [|b [|c r]]]; simpl PyStr.upper; unfold use_letters_at;
    repeat rewrite prefix_cons;
    rewrite ?upper_char_U, ?upper_char_S, ?upper_char_E; simpl;
    rewrite ?andb_false_r, ?andb_true_r; try reflexivity.
  rewrite prefix_nil, andb_true_r. now rewrite !andb_assoc.
Qed.

(** The test of line 98 looks for the three letters, nothing more. *)
Lemma str_in_USE_upper (text : string) :
  PyStr.str_in "USE" (PyStr.upper text) = mentions_use text.
Proof.
  unfold mentions_use.
  induction text as [|c r IH].
  - reflexivity.
  - change (PyStr.upper (String c r)) with (String (PyStr.upper_char c) (PyStr.upper r)).
    cbn [PyStr.str_in somewhere].
    rewrite IH.
    change (String (PyStr.upper_char c) (PyStr.upper r)) with (PyStr.upper (String c r)).
    now rewrite prefix_USE_upper.
Qed.



Lemma inject_schema_eq (schema text : string) :
  inject_schema schema text
  = if mentions_use text then text else use_statement schema ++ text.
Proof.
  unfold inject_schema, use_statement.
  rewrite str_in_USE_upper.
  destruct (mentions_use text); simpl; [reflexivity|].
  now rewrite !append_assoc.
Qed.

End StringFacts.

Example replace_trailing : PyStr.replace "001_create.sql" ".sql" "" = "001_create".
Proof. reflexivity. Qed.

Example replace_inner : PyStr.replace "x.sqlite.sql" ".sql" "" = "xite".
Proof. reflexivity. Qed.

Example sorted_example :
  PyStr.sorted ["2.sql"; "10.sql"; "1.sql"] = ["1.sql"; "10.sql"; "2.sql"].
Proof. reflexivity. Qed.

Example endswith_example :
  PyStr.endswith "a.sql" ".sql" = true /\ PyStr.endswith "sql" ".sql" = false
  /\ PyStr.endswith "a.SQL" ".sql" = false.
Proof. repeat split. Qed.

Example str_in_example :
  PyStr.str_in "USE" (PyStr.upper "select * from users") = true
  /\ PyStr.str_in "USE" (PyStr.upper "select 1") = false.
Proof. split; reflexivity. Qed.

(** ** Dictionaries *)

Section DictFacts.

Import PyDict.

Lemma get_set_same (k v : string) (d : dict) : get k (set k v d) = Some v.
Proof.
  induction d as [|[k' v'] r IH]; simpl.
  - now rewrite String.eqb_refl.
  - destruct (String.eqb_spec k k') as [->|Hne]; simpl.
    + now rewrite String.eqb_refl.
    + destruct (String.eqb_spec k k'); [contradiction | exact IH].
Qed.

Lemma get_set_other (k k' v : string) (d : dict) :
  k <> k' -> get k (set k' v d) = get k d.
Proof.
  intros Hne. induction d as [|[k0 v0] r IH]; simpl.
  - destruct (String.eqb_spec k k'); [contradiction | reflexivity].
  - destruct (String.eqb_spec k' k0) as [->|Hne0]; simpl.
    + destruct (String.eqb_spec k k0); [contradiction | reflexivity].
    + destruct (String.eqb_spec k k0); [reflexivity | exact IH].
Qed.

Lemma get_none (k : string) (d : dict) : ~ In k (keys d) -> get k d = None.
Proof.
  induction d as [|[k' v'] r IH]; simpl; intros Hn; [reflexivity|].
  destruct (String.eqb_spec k k') as [->|Hne].
  - exfalso; apply Hn; now left.
  - apply IH. intros Hin; apply Hn; now right.
Qed.

Lemma get_some_in (k v : string) (d : dict) : get k d = Some v -> In k (keys d).
Proof.
  induction d as [|[k' v'] r IH]; simpl; [discriminate|].
  destruct (String.eqb_spec k k') as [->|Hne]; intros H; [now left | right; auto].
Qed.

Lemma set_fresh (k v : string) (d : dict) :
  ~ In k (keys d) -> set k v d = (d ++ [(k, v)])%list.
Proof.
  induction d as [|[k' v'] r IH]; simpl; intros Hn; [reflexivity|].
  destruct (String.eqb_spec k k') as [->|Hne].
  - exfalso; apply Hn; now left.
  - f_equal. apply IH. intros Hin; apply Hn; now right.
Qed.

Lemma in_keys_set (k k' v : string) (d : dict) :
  In k (keys (set k' v d)) <-> k = k' \/ In k (keys d).
Proof.
  induction d as [|[k0 v0] r IH]; simpl.
  - intuition.
  - destruct (String.eqb_spec k' k0) as [->|Hne]; simpl.
    + intuition.
    + rewrite IH. intuition.
Qed.

Lemma NoDup_keys_set (k v : string) (d : dict) :
  NoDup (keys d) -> NoDup (keys (set k v d)).
Proof.
  induction d as [|[k0 v0] r IH]; simpl; intros Hnd.
  - constructor; [intros [] | constructor].
  - inversion Hnd as [|? ? Hnotin Hnd']; subst.
    destruct (String.eqb_spec k k0) as [->|Hne]; simpl.
    + now constructor.
    + constructor; [|now apply IH].
      change (~ In k0 (keys (set k v r))). rewrite in_keys_set.
      intros [Heq|Hin]; [now apply Hne | now apply Hnotin].
Qed.

Variable e : Env.

Lemma fold_store_get (ps : list string) (acc : dict) (k : string) :
  get k (fold_left (store_param e) ps acc)
  = if in_dec string_dec k ps then Some (Variable_get e k "") else get k acc.
Proof.
  revert acc. induction ps as [|p r IH]; intros acc; simpl; [reflexivity|].
  rewrite IH. unfold store_param.
  destruct (in_dec string_dec k r) as [Hin|Hnin];
    destruct (string_dec p k) as [->|Hne]; try reflexivity.
  - apply get_set_same.
  - apply get_set_other; congruence.
Qed.

Lemma fold_store_keys (ps : list string) (acc : dict) (k : string) :
  In k (keys (fold_left (store_param e) ps acc)) <-> In k ps \/ In k (keys acc).
Proof.
  revert acc. induction ps as [|p r IH]; intros acc; simpl; [intuition|].
  rewrite IH. unfold store_param. rewrite in_keys_set. intuition.
Qed.

Lemma fold_store_NoDup (ps : list string) (acc : dict) :
  NoDup (keys acc) -> NoDup (keys (fold_left (store_param e) ps acc)).
Proof.
  revert acc. induction ps as [|p r IH]; intros acc Hnd; simpl; [assumption|].
  apply IH. now apply NoDup_keys_set.
Qed.

(** The parameters read from the variables: every declared name, once,
    with its value or the empty string. *)
Lemma resolve_params_get (ps : list string) (k : string) :
  get k (resolve_params e ps)
  = if in_dec string_dec k ps then Some (Variable_get e k "") else None.
Proof. exact (fold_store_get ps [] k). Qed.

Lemma resolve_params_keys (ps : list string) (k : string) :
  In k (keys (resolve_params e ps)) <-> In k ps.
Proof.
  unfold resolve_params.
  rewrite (fold_store_keys ps [] k). simpl. intuition.
Qed.

Lemma resolve_params_NoDup (ps : list string) : NoDup (keys (resolve_params e ps)).
Proof. apply (fold_store_NoDup ps []). constructor. Qed.

End DictFacts.

Section MergeFacts.

Import PyDict.

(** Unpacking [extra] after a first entry [(s, v0)]: the entry stays in
    front and takes the value [extra] has for [s], if any; the other
    entries of [extra] follow in their order. *)
Lemma update_after_head (s : string) (extra : dict) :
  forall (v0 : string) (tl : dict),
    NoDup (keys extra) ->
    (forall k, In k (keys extra) -> ~ In k (keys tl)) ->
    ~ In s (keys tl) ->
    update ((s, v0) :: tl) extra
    = (s, get_default (get s extra) v0) :: (tl ++ filter (other_than s) extra)%list.
Proof.
  unfold update.
  induction extra as [|[k1 v1] r IH]; intros v0 tl Hnd Hdisj Hs; simpl.
  - now rewrite app_nil_r.
  - inversion Hnd as [|? ? Hnotin Hnd']; subst.
    unfold other_than at 1; simpl.
    destruct (String.eqb_spec k1 s) as [->|Hne]; simpl.
    + rewrite String.eqb_refl. simpl.
      rewrite IH; auto.
      * now rewrite (get_none s r Hnotin).
      * intros k Hk. apply Hdisj. now right.
    + destruct (String.eqb_spec s k1) as [Heq|_]; [now symmetry in Heq|].
      rewrite set_fresh by (apply Hdisj; now left).
      rewrite IH; auto.
      * now rewrite <- app_assoc.
      * intros k Hk. unfold keys. rewrite map_app, in_app_iff. simpl.
        intros [Hin|[Heq|[]]].
        -- revert Hin. apply Hdisj. now right.
        -- subst. now apply Hnotin.
      * unfold keys. rewrite map_app, in_app_iff. simpl.
        intros [Hin|[Heq|[]]]; [now apply Hs | now apply Hne].
Qed.

Lemma merged_params_eq (schema : string) (params : dict) :
  NoDup (keys params) ->
  merged_params schema params
  = ("schema_name", get_default (get "schema_name" params) schema)
      :: filter (other_than "schema_name") params.
Proof.
  intros Hnd. unfold merged_params.
  rewrite (update_after_head "schema_name" params schema []); auto.
Qed.


End MergeFacts.

(** ** The order of file names and [sorted] *)

Section SortFacts.

Lemma compare_not_Gt_trans (a : string) :
  forall b c,
    String.compare a b <> Gt -> String.compare b c <> Gt -> String.compare a c <> Gt.
Proof.
  induction a as [|x a IH]; intros [|y b] [|z c]; simpl; try congruence.
  unfold Ascii.compare.
  destruct (N.compare_spec (N_of_ascii x) (N_of_ascii y)) as [Exy|Lxy|Gxy];
    destruct (N.compare_spec (N_of_ascii y) (N_of_ascii z)) as [Eyz|Lyz|Gyz];
    destruct (N.compare_spec (N_of_ascii x) (N_of_ascii z)) as [Exz|Lxz|Gxz];
    try congruence; try lia; eauto.
Qed.

Lemma leb_not_Gt (a b : string) : String.leb a b = true <-> String.compare a b <> Gt.
Proof. unfold String.leb. destruct (String.compare a b); split; congruence. Qed.

Lemma str_le_trans (a b c : string) : str_le a b -> str_le b c -> str_le a c.
Proof. unfold str_le. rewrite !leb_not_Gt. apply compare_not_Gt_trans. Qed.

Lemma str_le_total (a b : string) : String.leb a b = false -> str_le b a.
Proof.
  intros H. destruct (String.leb_total a b) as [H'|H']; [congruence | exact H'].
Qed.

Lemma insert_sorted_perm (x : string) (l : list string) :
  Permutation (x :: l) (PyStr.insert_sorted x l).
Proof.
  induction l as [|y r IH]; simpl; [apply Permutation_refl|].
  destruct (String.leb x y); [apply Permutation_refl|].
  eapply perm_trans; [apply perm_swap | now apply perm_skip].
Qed.

Lemma sorted_perm (l : list string) : Permutation l (PyStr.sorted l).
Proof.
  induction l as [|x r IH]; simpl; [constructor|].
  eapply perm_trans; [apply perm_skip, IH | apply insert_sorted_perm].
Qed.

Lemma insert_sorted_ordered (x : string) (l : list string) :
  StronglySorted str_le l -> StronglySorted str_le (PyStr.insert_sorted x l).
Proof.
  induction l as [|y r IH]; intros Hs; simpl.
  - constructor; constructor.
  - inversion Hs as [|? ? Hr Hall]; subst.
    destruct (String.leb x y) eqn:Hxy.
    + constructor; [assumption|]. constructor; [exact Hxy|].
      eapply Forall_impl; [|exact Hall]. intros z Hz.
      now apply str_le_trans with y.
    + constructor; [now apply IH|].
      apply (Permutation_Forall (insert_sorted_perm x r)).
      constructor; [now apply str_le_total | assumption].
Qed.

Lemma sorted_ordered (l : list string) : StronglySorted str_le (PyStr.sorted l).
Proof.
  induction l as [|x r IH]; simpl; [constructor | now apply insert_sorted_ordered].
Qed.

(** Inserting two names in either order gives the same list. *)
Lemma insert_sorted_comm (x y : string) (l : list string) :
  PyStr.insert_sorted x (PyStr.insert_sorted y l)
  = PyStr.insert_sorted y (PyStr.insert_sorted x l).
Proof.
  induction l as [|z r IH]; simpl.
  - destruct (String.leb x y) eqn:Hxy, (String.leb y x) eqn:Hyx; try reflexivity.
    + now rewrite (String.leb_antisym x y Hxy Hyx).
    + apply str_le_total in Hxy. unfold str_le in Hxy. congruence.
  - destruct (String.leb y z) eqn:Hyz, (String.leb x z) eqn:Hxz; simpl;
      rewrite ?Hyz, ?Hxz.
    + destruct (String.leb x y) eqn:Hxy, (String.leb y x) eqn:Hyx; try reflexivity.
      * now rewrite (String.leb_antisym x y Hxy Hyx).
      * apply str_le_total in Hxy. unfold str_le in Hxy. congruence.
    + destruct (String.leb x y) eqn:Hxy; [|reflexivity].
      pose proof (str_le_trans x y z Hxy Hyz) as H. unfold str_le in H. congruence.
    + destruct (String.leb y x) eqn:Hyx; [|reflexivity].
      pose proof (str_le_trans y x z Hyx Hxz) as H. unfold str_le in H. congruence.
    + now rewrite IH.
Qed.

(** [sorted] forgets the order in which a directory lists its entries. *)
Lemma sorted_of_permutation (l1 l2 : list string) :
  Permutation l1 l2 -> PyStr.sorted l1 = PyStr.sorted l2.
Proof.
  induction 1 as [|x l l' _ IH|x y l|l l' l'' _ IH1 _ IH2]; simpl.
  - reflexivity.
  - now rewrite IH.
  - apply insert_sorted_comm.
  - now rewrite IH1.
Qed.

Lemma filter_ordered (f : string -> bool) (l : list string) :
  StronglySorted str_le l -> StronglySorted str_le (filter f l).
Proof.
  induction 1 as [|x r Hr IH Hall]; simpl; [constructor|].
  destruct (f x); [|exact IH].
  constructor; [exact IH|].
  rewrite Forall_forall in *. intros z Hz. apply Hall.
  now apply filter_In in Hz.
Qed.

Lemma filter_perm {A : Type} (f : A -> bool) (l1 l2 : list A) :
  Permutation l1 l2 -> Permutation (filter f l1) (filter f l2).
Proof.
  induction 1 as [|x l l' _ IH|x y l|l l' l'' _ IH1 _ IH2]; simpl.
  - constructor.
  - destruct (f x); [now constructor | exact IH].
  - destruct (f x), (f y); try apply Permutation_refl. apply perm_swap.
  - now apply perm_trans with (filter f l').
Qed.

(** The files of a category in visiting order: the [.sql] entries of the
    directory, each once, in increasing order of name. *)
Lemma sql_files_ordered (e : Env) (c : string) : StronglySorted str_le (sql_files e c).
Proof. apply filter_ordered, sorted_ordered. Qed.

Lemma sql_files_perm (e : Env) (c : string) :
  Permutation (sql_entries e c) (sql_files e c).
Proof. apply filter_perm, sorted_perm. Qed.

End SortFacts.

(** ** Loops *)

Section LoopRule.

Context {A S : Type}.
Variable body : S -> A -> Build S.
Variable l : list A.
Variable I : list A -> S -> DAG -> Prop.
Variable F : list A -> A -> Error -> DAG -> Prop.

Hypothesis step :
  forall done x rest s d,
    l = (done ++ x :: rest)%list -> I done s d ->
    match body s x d with
    | (inr s', d') => I (done ++ [x])%list s' d'
    | (inl err, d') => F done x err d'
    end.

Lemma for_each_from (rest done : list A) (s : S) (d : DAG) :
  l = (done ++ rest)%list -> I done s d ->
  match for_each rest body s d with
  | (inr s', d') => I l s' d'
  | (inl err, d') =>
      exists done' x rest', l = (done' ++ x :: rest')%list /\ F done' x err d'
  end.
Proof.
  revert done s d. induction rest as [|x r IH]; intros done s d Hl Hi.
  - simpl. unfold ret. rewrite Hl, app_nil_r. exact Hi.
  - simpl. unfold bind.
    pose proof (step done x r s d Hl Hi) as Hstep.
    destruct (body s x d) as [[err|s'] d'].
    + now exists done, x, r.
    + apply (IH (done ++ [x])%list); [|exact Hstep].
      now rewrite <- app_assoc.
Qed.

(** An invariant [I] of the loop holds at the end of a run that completes;
    a run that raises did so in the body, at an element [x], where [F]
    holds. *)
Lemma for_each_rule (s : S) (d : DAG) :
  I [] s d ->
  match for_each l body s d with
  | (inr s', d') => I l s' d'
  | (inl err, d') =>
      exists done x rest, l = (done ++ x :: rest)%list /\ F done x err d'
  end.
Proof. intros Hi. now apply (for_each_from l []). Qed.

End LoopRule.

Section ListFacts.

Lemma filter_all_false {A : Type} (p : A -> bool) (l : list A) :
  (forall i, In i l -> p i = false) -> filter p l = [].
Proof.
  induction l as [|x r IH]; intros H; simpl; [reflexivity|].
  rewrite (H x) by now left. apply IH. intros i Hi. apply H. now right.
Qed.

Lemma filter_single (p : nat -> bool) (l : list nat) (j : nat) :
  NoDup l -> In j l -> (forall i, In i l -> (p i = true <-> i = j)) ->
  filter p l = [j].
Proof.
  induction l as [|x r IH]; intros Hnd Hin Hp; [destruct Hin|].
  inversion Hnd as [|? ? Hnotin Hnd']; subst. simpl.
  destruct (Nat.eq_dec x j) as [->|Hne].
  - rewrite (proj2 (Hp j (or_introl eq_refl)) eq_refl).
    f_equal. apply filter_all_false. intros i Hi.
    destruct (p i) eqn:Hpi; [|reflexivity].
    apply (Hp i (or_intror Hi)) in Hpi. subst. contradiction.
  - destruct (p x) eqn:Hpx.
    + apply (Hp x (or_introl eq_refl)) in Hpx. contradiction.
    + apply IH; auto.
      * destruct Hin; [contradiction | assumption].
      * intros i Hi. apply Hp. now right.
Qed.

Lemma mem_seq (i a m : nat) : Airflow.mem i (seq a m) = true <-> a <= i < a + m.
Proof.
  unfold Airflow.mem. rewrite existsb_exists. split.
  - intros [x [Hin Heq]]. apply Nat.eqb_eq in Heq. subst. now apply in_seq.
  - intros H. exists i. split; [now apply in_seq | apply Nat.eqb_refl].
Qed.

Lemma in_chain (b n x y : nat) :
  In (x, y) (chain b n) <-> y = S x /\ b <= x /\ S x < b + n.
Proof.
  unfold chain. rewrite in_map_iff. split.
  - intros [i [Heq Hin]]. inversion Heq; subst. apply in_seq in Hin. lia.
  - intros [-> [H1 H2]]. exists x. split; [reflexivity | apply in_seq; lia].
Qed.

Lemma chain_snoc (b n : nat) :
  0 < n -> (chain b n ++ [(b + n - 1, b + n)])%list = chain b (S n).
Proof.
  intros Hn. unfold chain.
  replace (S n - 1) with (S (n - 1)) by lia.
  rewrite seq_S, map_app. simpl.
  replace (b + (n - 1)) with (b + n - 1) by lia.
  replace (S (b + n - 1)) with (b + n) by lia.
  reflexivity.
Qed.

Lemma last_opt_snoc {A : Type} (l : list A) (x : A) : last_opt (l ++ [x]) = Some x.
Proof. unfold last_opt. now rewrite rev_app_distr. Qed.

Lemma last_opt_none {A : Type} (l : list A) : last_opt l = None -> l = [].
Proof.
  destruct l as [|x r] using rev_ind; [reflexivity|].
  now rewrite last_opt_snoc.
Qed.

Lemma adjacent_snoc {A : Type} (l : list A) (x : A) :
  adjacent (l ++ [x])
  = (adjacent l ++ match last_opt l with Some g => [(g, x)] | None => [] end)%list.
Proof.
  induction l as [|a r IH]; [reflexivity|].
  destruct r as [|b r'].
  - reflexivity.
  - change (adjacent ((a :: b :: r') ++ [x])%list)
      with ((a, b) :: adjacent ((b :: r') ++ [x])%list).
    rewrite IH.
    change (adjacent (a :: b :: r')) with ((a, b) :: adjacent (b :: r')).
    simpl app. f_equal. f_equal.
    unfold last_opt. simpl rev.
    destruct (rev r' ++ [b])%list eqn:Hr; [now destruct (rev r') | reflexivity].
Qed.

Lemma members_from_app (g : string) (ts1 ts2 : list Operator) :
  forall i,
    Airflow.members_from g i (ts1 ++ ts2)
    = (Airflow.members_from g i ts1
         ++ Airflow.members_from g (i + List.length ts1) ts2)%list.
Proof.
  induction ts1 as [|t r IH]; intros i; simpl.
  - now rewrite Nat.add_0_r.
  - rewrite IH. replace (S i + List.length r) with (i + S (List.length r)) by lia.
    now destruct (op_group t =? g).
Qed.

Lemma members_from_all (g : string) (ts : list Operator) :
  forall i,
    Forall (fun t => op_group t = g) ts ->
    Airflow.members_from g i ts = seq i (List.length ts).
Proof.
  induction ts as [|t r IH]; intros i Hall; simpl; [reflexivity|].
  inversion Hall as [|? ? Ht Hr]; subst.
  rewrite String.eqb_refl. f_equal. now apply IH.
Qed.

Lemma members_from_none (g : string) (ts : list Operator) :
  forall i,
    Forall (fun t => op_group t <> g) ts ->
    Airflow.members_from g i ts = [].
Proof.
  induction ts as [|t r IH]; intros i Hall; simpl; [reflexivity|].
  inversion Hall as [|? ? Ht Hr]; subst.
  destruct (String.eqb_spec (op_group t) g); [contradiction | now apply IH].
Qed.

End ListFacts.

(** ** The loop over the files of a category *)

Section FileLoop.

Variable e : Env.
Variable p : Prepared.
Variable c : string.
Variable T0 : list Operator.
Variable E0 : list (task_ref * task_ref).
Variable GE0 : list (string * string).

Lemma operators_of_length (fs : list string) :
  List.length (operators_of e p c fs) = List.length fs.
Proof. unfold operators_of. now rewrite !length_map. Qed.

Lemma operators_of_app (fs gs : list string) :
  operators_of e p c (fs ++ gs) = (operators_of e p c fs ++ operators_of e p c gs)%list.
Proof. unfold operators_of. now rewrite !map_app. Qed.

Lemma file_step_keeps (done : list string) (x : string)
    (st : option task_ref * nat) (d : DAG) :
  file_inv e p c T0 E0 GE0 done st d ->
  match file_step e p c st x d with
  | (inr st', d') => file_inv e p c T0 E0 GE0 (done ++ [x]) st' d'
  | (inl err, d') => file_fail e p c T0 done x err d'
  end.
Proof.
  intros (Ht & Hr & Hn & Hprev & He & Hge).
  destruct st as [prev n]. simpl in Hn, Hprev, He.
  unfold file_step. destruct (is_sql x) eqn:Hx.
  - unfold read_sql, bind.
    destruct (sql_text e c x) as [text|] eqn:Htext.
    + assert (Hop : make_operator p c x text = operator_of e p (c, x)).
      { unfold operator_of. simpl. now rewrite Htext. }
      assert (Hlen : List.length (tasks d) = List.length T0 + n).
      { rewrite Ht, length_app, operators_of_length. lia. }
      assert (Hrd : Forall (readable e) (map (pair c) (filter is_sql (done ++ [x])))).
      { rewrite filter_app, map_app. apply Forall_app. split; [exact Hr|].
        simpl. rewrite Hx. constructor; [|constructor].
        unfold readable. simpl. congruence. }
      assert (Hts : (tasks d ++ [make_operator p c x text])%list
                    = (T0 ++ operators_of e p c (filter is_sql (done ++ [x])))%list).
      { rewrite filter_app, operators_of_app, app_assoc, <- Ht. simpl. rewrite Hx.
        unfold operators_of. simpl. now rewrite Hop. }
      assert (Hcount : S n = List.length (filter is_sql (done ++ [x]))).
      { rewrite filter_app, length_app. simpl. rewrite Hx. simpl. lia. }
      unfold ret, Airflow.SnowflakeOperator. cbn iota beta.
      destruct n as [|n']; simpl in Hprev; subst prev.
      * unfold ret. unfold file_inv. simpl.
        rewrite length_app. simpl.
        repeat split; auto.
        f_equal. lia.
      * unfold Airflow.set_downstream. unfold file_inv. simpl.
        rewrite length_app. simpl.
        repeat split; auto.
        -- f_equal. lia.
        -- rewrite He, <- app_assoc. f_equal.
           rewrite <- (chain_snoc (List.length T0) (S n')) by lia.
           now rewrite Hlen.
    + unfold raise. repeat split; auto.
  - unfold ret. unfold file_inv. simpl.
    rewrite filter_app. simpl. rewrite Hx, app_nil_r.
    repeat split; auto.
Qed.

(** A run of the loop from an empty chain. *)
Lemma file_loop_run (files : list string) (d : DAG) :
  tasks d = T0 -> edges d = E0 -> group_edges d = GE0 ->
  match for_each files (file_step e p c) (None, 0) d with
  | (inr st', d') => file_inv e p c T0 E0 GE0 files st' d'
  | (inl err, d') =>
      exists done x rest,
        files = (done ++ x :: rest)%list /\ file_fail e p c T0 done x err d'
  end.
Proof.
  intros Ht He Hge.
  apply (for_each_rule (file_step e p c) files
           (file_inv e p c T0 E0 GE0) (file_fail e p c T0)).
  - intros done x rest st d' _ Hinv. now apply file_step_keeps.
  - unfold file_inv, operators_of, chain. simpl.
    rewrite !app_nil_r. repeat split; auto.
Qed.

End FileLoop.
(** ** Leaves and roots of a block of the chain *)

Section Blocks.

Variable E : list (task_ref * task_ref).
Hypothesis successor : forall x y, In (x, y) E -> y = S x.

Lemma negb_existsb_true {A : Type} (f : A -> bool) (l : list A) :
  negb (existsb f l) = true <-> (forall x, In x l -> f x = false).
Proof.
  rewrite negb_true_iff. split.
  - intros H x Hin. destruct (f x) eqn:Hfx; [|reflexivity].
    assert (existsb f l = true) by (apply existsb_exists; eauto). congruence.
  - intros H. destruct (existsb f l) eqn:Hex; [|reflexivity].
    apply existsb_exists in Hex. destruct Hex as [x [Hin Hfx]].
    rewrite (H x Hin) in Hfx. discriminate.
Qed.

(** The operators [a .. b-1], linked one to the next: the only one with
    nothing downstream among them is the last. *)
Lemma leaves_block (a b : nat) :
  a < b ->
  (forall i, S i < b -> In (i, S i) E) ->
  filter (fun i =>
            negb (existsb (fun ab => (fst ab =? i)%nat
                                     && Airflow.mem (snd ab) (seq a (b - a))) E))
         (seq a (b - a))
  = [b - 1].
Proof.
  intros Hab Hlinks. apply filter_single.
  - apply seq_NoDup.
  - apply in_seq. lia.
  - intros i Hi. apply in_seq in Hi. rewrite negb_existsb_true. split.
    + intros Hnone. destruct (Nat.eq_dec i (b - 1)) as [|Hne]; [assumption|].
      assert (Hin : In (i, S i) E) by (apply Hlinks; lia).
      apply Hnone in Hin. cbn [fst snd] in Hin.
      rewrite Nat.eqb_refl in Hin. cbn [andb] in Hin.
      assert (Airflow.mem (S i) (seq a (b - a)) = true) by (apply mem_seq; lia).
      congruence.
    + intros -> [x y] Hin. simpl.
      destruct (Nat.eqb_spec x (b - 1)) as [->|]; [|reflexivity]. simpl.
      apply successor in Hin. subst y.
      destruct (Airflow.mem (S (b - 1)) (seq a (b - a))) eqn:Hm; [|reflexivity].
      apply mem_seq in Hm. lia.
Qed.

(** The operators [b .. b+n-1], linked one to the next: the only one with
    nothing upstream among them is the first. *)
Lemma roots_block (b n : nat) :
  0 < n ->
  (forall i, b <= i -> S i < b + n -> In (i, S i) E) ->
  filter (fun i =>
            negb (existsb (fun ab => (snd ab =? i)%nat
                                     && Airflow.mem (fst ab) (seq b n)) E))
         (seq b n)
  = [b].
Proof.
  intros Hn Hlinks. apply filter_single.
  - apply seq_NoDup.
  - apply in_seq. lia.
  - intros i Hi. apply in_seq in Hi. rewrite negb_existsb_true. split.
    + intros Hnone. destruct (Nat.eq_dec i b) as [|Hne]; [assumption|].
      assert (Hin : In (i - 1, i) E).
      { replace i with (S (i - 1)) at 2 by lia. apply Hlinks; lia. }
      apply Hnone in Hin. cbn [fst snd] in Hin.
      rewrite Nat.eqb_refl in Hin. cbn [andb] in Hin.
      assert (Airflow.mem (i - 1) (seq b n) = true) by (apply mem_seq; lia).
      congruence.
    + intros -> [x y] Hin. simpl.
      destruct (Nat.eqb_spec y b) as [->|]; [|reflexivity]. simpl.
      apply successor in Hin.
      destruct (Airflow.mem x (seq b n)) eqn:Hm; [|reflexivity].
      apply mem_seq in Hm. lia.
Qed.

End Blocks.

Section PlanFacts.

Variable e : Env.
Variable p : Prepared.

Lemma plan_of_app (cs1 cs2 : list string) :
  plan_of e (cs1 ++ cs2) = (plan_of e cs1 ++ plan_of e cs2)%list.
Proof. unfold plan_of. apply flat_map_app. Qed.

Lemma plan_of_one (c : string) : plan_of e [c] = map (pair c) (sql_files e c).
Proof. unfold plan_of. simpl. apply app_nil_r. Qed.

Lemma plan_of_category (cs : list string) (cf : string * string) :
  In cf (plan_of e cs) -> In (fst cf) cs /\ In (snd cf) (sql_files e (fst cf)).
Proof.
  unfold plan_of. rewrite in_flat_map. intros [c [Hc Hin]].
  apply in_map_iff in Hin. destruct Hin as [f [<- Hf]]. simpl. auto.
Qed.

Lemma plan_of_empty (cs : list string) :
  filter (has_files e) cs = [] -> plan_of e cs = [].
Proof.
  induction cs as [|c r IH]; [reflexivity|].
  cbn [filter]. unfold has_files at 1.
  destruct (sql_files e c) eqn:Hfs; [|discriminate].
  intros H. change (plan_of e (c :: r)) with (map (pair c) (sql_files e c) ++ plan_of e r)%list.
  rewrite Hfs. simpl. now apply IH.
Qed.

Lemma operators_outside (cs : list string) (c : string) :
  ~ In c cs ->
  Forall (fun t => op_group t <> c) (map (operator_of e p) (plan_of e cs)).
Proof.
  intros Hfresh. apply Forall_forall. intros t Ht.
  apply in_map_iff in Ht. destruct Ht as [cf [<- Hcf]].
  apply plan_of_category in Hcf. simpl. intros Heq. apply Hfresh.
  now rewrite <- Heq.
Qed.

Lemma operators_inside (c : string) (fs : list string) :
  Forall (fun t => op_group t = c) (operators_of e p c fs).
Proof.
  unfold operators_of. apply Forall_forall. intros t Ht.
  apply in_map_iff in Ht. destruct Ht as [cf [<- Hcf]].
  apply in_map_iff in Hcf. destruct Hcf as [f [<- _]]. reflexivity.
Qed.

Lemma last_opt_in {A : Type} (l : list A) (x : A) : last_opt l = Some x -> In x l.
Proof.
  destruct l as [|y r] using rev_ind; [discriminate|].
  rewrite last_opt_snoc. intros H. inversion H; subst.
  apply in_or_app. right. now left.
Qed.

End PlanFacts.

(** ** The loop over the categories *)

Section SubdirLoop.

Variable e : Env.
Variable p : Prepared.

Lemma sql_files_absent (c : string) : listdir e c = None -> sql_files e c = [].
Proof. unfold sql_files. now intros ->. Qed.

Lemma has_files_false (c : string) : sql_files e c = [] -> has_files e c = false.
Proof. unfold has_files. now intros ->. Qed.

Lemma has_files_true (c : string) : sql_files e c <> [] -> has_files e c = true.
Proof. unfold has_files. now destruct (sql_files e c). Qed.

Lemma members_same_tasks (g : string) (d d' : DAG) :
  tasks d' = tasks d -> Airflow.members g d' = Airflow.members g d.
Proof. unfold Airflow.members. now intros ->. Qed.

(** A category without units leaves the invariant as it is. *)
Lemma subdir_inv_skip (done : list string) (c : string)
    (prev : option string) (d d' : DAG) :
  sql_files e c = [] ->
  tasks d' = tasks d -> edges d' = edges d -> group_edges d' = group_edges d ->
  subdir_inv e p done prev d -> subdir_inv e p (done ++ [c]) prev d'.
Proof.
  intros Hfs Ht' He' Hge' (Ht & Hr & Hlin & Hge & Hprev & Hmem).
  assert (Hplan : plan_of e (done ++ [c]) = plan_of e done).
  { now rewrite plan_of_app, plan_of_one, Hfs, app_nil_r. }
  assert (Hfilter : filter (has_files e) (done ++ [c]) = filter (has_files e) done).
  { rewrite filter_app. simpl. now rewrite (has_files_false c Hfs), app_nil_r. }
  unfold subdir_inv. rewrite Hplan, Hfilter, Ht', He', Hge'.
  do 5 (split; [assumption|]).
  destruct prev as [g|]; [|exact I].
  destruct Hmem as [a [Ha Hm]]. exists a. split; [exact Ha|].
  now rewrite (members_same_tasks g d d' Ht').
Qed.

Lemma subdir_step_keeps (done : list string) (c : string)
    (prev : option string) (d : DAG) :
  ~ In c done ->
  subdir_inv e p done prev d ->
  match subdir_step e p prev c d with
  | (inr prev', d') => subdir_inv e p (done ++ [c]) prev' d'
  | (inl err, d') => subdir_fail e p done c err d'
  end.
Proof.
  intros Hfresh Hinv.
  unfold subdir_step. destruct (listdir e c) as [entries|] eqn:Hdir.
  2: { unfold ret. apply (subdir_inv_skip done c prev d d); auto.
       now apply sql_files_absent. }
  assert (Hfiles : sql_files e c = filter is_sql (PyStr.sorted entries)).
  { unfold sql_files. now rewrite Hdir. }
  unfold bind at 1. unfold Airflow.TaskGroup.
  set (d1 := with_groups d (dag_groups d ++ [c])).
  unfold bind at 1.
  pose proof (file_loop_run e p c (tasks d) (edges d) (group_edges d)
                (PyStr.sorted entries) d1 eq_refl eq_refl eq_refl) as Hrun.
  destruct (for_each (PyStr.sorted entries) (file_step e p c) (None, 0) d1)
    as [[err|st] d2].
  - (* a file does not read *)
    destruct Hrun as (pre & x & post & Hsplit & Herr & Hx & Htext & Ht2 & Hr2).
    destruct Hinv as (Ht & Hr & _).
    exists (filter is_sql pre), x, (filter is_sql post).
    repeat split; auto.
    + rewrite Hfiles, Hsplit, filter_app. simpl. now rewrite Hx.
    + rewrite Ht2, Ht, map_app. reflexivity.
    + apply Forall_app. split; assumption.
  - destruct Hrun as (Ht2 & Hr2 & Hn & Hlast & He2 & Hge2).
    rewrite <- Hfiles in Ht2, Hr2, Hn.
    destruct (snd st <? 1)%nat eqn:Hcount.
    + (* no unit in the category *)
      apply Nat.ltb_lt in Hcount.
      assert (Hfs : sql_files e c = []).
      { destruct (sql_files e c); [reflexivity | simpl in Hn; lia]. }
      unfold ret. apply (subdir_inv_skip done c prev d d2); auto.
      * rewrite Ht2, Hfs. unfold operators_of. simpl. apply app_nil_r.
      * rewrite He2. replace (snd st) with 0 by lia. unfold chain. simpl.
        apply app_nil_r.
    + (* the category has units *)
      apply Nat.ltb_ge in Hcount.
      destruct Hinv as (Ht & Hr & Hlin & Hge & Hprev & Hmem).
      assert (Hne : sql_files e c <> []).
      { intros Hnil. rewrite Hnil in Hn. simpl in Hn. lia. }
      assert (Hplan : plan_of e (done ++ [c])
                      = (plan_of e done ++ map (pair c) (sql_files e c))%list).
      { now rewrite plan_of_app, plan_of_one. }
      assert (Hfilter : filter (has_files e) (done ++ [c])
                        = (filter (has_files e) done ++ [c])%list).
      { rewrite filter_app. simpl. now rewrite (has_files_true c Hne). }
      assert (Ht2' : tasks d2 = map (operator_of e p) (plan_of e (done ++ [c]))).
      { now rewrite Ht2, Hplan, map_app, Ht. }
      assert (Hr2' : Forall (readable e) (plan_of e (done ++ [c]))).
      { rewrite Hplan. apply Forall_app. now split. }
      assert (Hlen2 : List.length (tasks d2) = List.length (tasks d) + snd st).
      { rewrite Ht2, length_app, operators_of_length. lia. }
      assert (Hmc : Airflow.members c d2
                    = seq (List.length (tasks d)) (snd st)).
      { unfold Airflow.members. rewrite Ht2, members_from_app.
        rewrite members_from_none
          by (rewrite Ht; now apply operators_outside).
        rewrite members_from_all by apply operators_inside.
        rewrite operators_of_length, <- Hn. reflexivity. }
      assert (Hin2 : forall x y,
                 In (x, y) (edges d2)
                 <-> y = S x
                     /\ (y < List.length (tasks d)
                         \/ (List.length (tasks d) <= x
                             /\ y < List.length (tasks d) + snd st))).
      { intros x y. rewrite He2, in_app_iff, in_chain, (Hlin x y). lia. }
      assert (Hsucc : forall x y, In (x, y) (edges d2) -> y = S x).
      { intros x y Hxy. now apply Hin2 in Hxy. }
      destruct prev as [g|].
      * destruct Hmem as [a [Ha Hm]].
        assert (Hgc : g <> c).
        { intros ->. apply Hfresh. symmetry in Hprev.
          apply last_opt_in in Hprev. now apply filter_In in Hprev. }
        assert (Hmg : Airflow.members g d2
                      = seq a (List.length (tasks d) - a)).
        { unfold Airflow.members. rewrite Ht2, members_from_app.
          fold (Airflow.members g d). rewrite Hm.
          rewrite members_from_none; [apply app_nil_r|].
          eapply Forall_impl; [|apply operators_inside].
          simpl. intros t ->. congruence. }
        assert (Hleaves : Airflow.leaves g d2 = [List.length (tasks d) - 1]).
        { unfold Airflow.leaves. rewrite Hmg.
          apply leaves_block; [exact Hsucc | exact Ha |].
          intros i Hi. apply Hin2. lia. }
        assert (Hroots : Airflow.roots c d2 = [List.length (tasks d)]).
        { unfold Airflow.roots. rewrite Hmc.
          apply roots_block; [exact Hsucc | lia |].
          intros i Hi1 Hi2. apply Hin2. lia. }
        unfold bind, Airflow.group_set_downstream, ret.
        rewrite Hleaves, Hroots. cbn [list_prod map app].
        unfold subdir_inv. cbn [tasks edges group_edges with_edges].
        split; [exact Ht2'|]. split; [exact Hr2'|].
        split.
        { intros x y. rewrite in_app_iff, Hin2, Hlen2. simpl.
          split.
          - intros [H|[H|[]]]; [lia|]. inversion H; subst. lia.
          - intros [-> H].
            destruct (Nat.eq_dec (S x) (List.length (tasks d))) as [Heq|Hneq].
            + right. left. f_equal; lia.
            + left. lia. }
        split.
        { rewrite Hge2, Hge, Hfilter, adjacent_snoc, <- Hprev. reflexivity. }
        split.
        { now rewrite Hfilter, last_opt_snoc. }
        exists (List.length (tasks d)). split; [lia|].
        unfold Airflow.members. cbn [tasks with_edges].
        fold (Airflow.members c d2). rewrite Hmc. f_equal. lia.
      * assert (Hempty : tasks d = []).
        { rewrite Ht. rewrite plan_of_empty; [reflexivity|].
          symmetry in Hprev. now apply last_opt_none in Hprev. }
        unfold bind, ret.
        unfold subdir_inv.
        split; [exact Ht2'|]. split; [exact Hr2'|].
        split.
        { intros x y. rewrite Hin2, Hlen2, Hempty. simpl. lia. }
        split.
        { rewrite Hge2, Hge, Hfilter, adjacent_snoc, <- Hprev. now rewrite app_nil_r. }
        split.
        { now rewrite Hfilter, last_opt_snoc. }
        exists (List.length (tasks d)). split; [lia|].
        rewrite Hmc. f_equal. lia.
Qed.

(** The whole loop, from the DAG as it is created. *)
Lemma subdir_loop_run (d0 : DAG) :
  tasks d0 = [] -> edges d0 = [] -> group_edges d0 = [] ->
  match for_each target_subdirs (subdir_step e p) None d0 with
  | (inr prev, d) => subdir_inv e p target_subdirs prev d
  | (inl err, d) =>
      exists done c rest,
        target_subdirs = (done ++ c :: rest)%list /\ subdir_fail e p done c err d
  end.
Proof.
  intros Ht He Hge.
  apply (for_each_rule (subdir_step e p) target_subdirs
           (subdir_inv e p) (subdir_fail e p)).
  - intros done c rest prev d Hsplit Hinv.
    apply subdir_step_keeps; [|exact Hinv].
    assert (Hnd : NoDup target_subdirs).
    { unfold target_subdirs.
      repeat (constructor; [simpl; intuition discriminate|]). constructor. }
    rewrite Hsplit in Hnd. apply NoDup_remove_2 in Hnd.
    intros Hin. apply Hnd. apply in_or_app. now left.
  - unfold subdir_inv. rewrite Ht, He, Hge. simpl.
    split; [reflexivity|]. split; [constructor|].
    split; [|now repeat split].
    intros x y. simpl. split; [intros [] | intros [_ H]; lia].
Qed.

End SubdirLoop.
(** ** Runs of the script *)

Lemma in_split_left {A : Type} (l a r : list A) (x y : A) :
  l = (a ++ x :: r)%list -> In y a -> In y l.
Proof. intros -> H. apply in_or_app. now left. Qed.

Lemma in_split_mid {A : Type} (l a r : list A) (x : A) :
  l = (a ++ x :: r)%list -> In x l.
Proof. intros ->. apply in_or_app. right. now left. Qed.

Section Runs.

Variable e : Env.


(** How a run ends: before the DAG exists, or in the loop with the DAG
    built so far, or at the end of the loop. *)
Lemma generate_run :
  match prepare e with
  | inl err => result (generate e) = inl err /\ registered (generate e) = None
  | inr p =>
      exists d,
        registered (generate e) = Some d
        /\ match result (generate e) with
           | inr _ => exists prev, subdir_inv e p target_subdirs prev d
           | inl err =>
               exists done c rest,
                 target_subdirs = (done ++ c :: rest)%list
                 /\ subdir_fail e p done c err d
           end
  end.
Proof.
  unfold generate. destruct (prepare e) as [err|p]; [now split|].
  pose proof (subdir_loop_run e p (new_dag e p) eq_refl eq_refl eq_refl) as Hrun.
  destruct (for_each target_subdirs (subdir_step e p) None (new_dag e p))
    as [[err|prev] d]; exists d; simpl; split; eauto.
Qed.

Lemma generate_registered (d : DAG) :
  registered (generate e) = Some d -> exists p, prepare e = inr p.
Proof.
  pose proof generate_run as Hrun. intros Hd.
  destruct (prepare e) as [err|p]; [|now exists p].
  destruct Hrun as [_ Hnone]. congruence.
Qed.

Lemma unit_name_operator_of (p : Prepared) (cf : string * string) :
  unit_name (operator_of e p cf) = cf.
Proof. now destruct cf. Qed.

Lemma unit_names_plan (p : Prepared) (l : list (string * string)) :
  map unit_name (map (operator_of e p) l) = l.
Proof.
  rewrite map_map. rewrite <- (map_id l) at 2.
  apply map_ext. apply unit_name_operator_of.
Qed.

(** A run that completes has built the whole chain. *)
Lemma generate_success (d : DAG) :
  result (generate e) = inr tt -> registered (generate e) = Some d ->
  exists p prev, prepare e = inr p /\ subdir_inv e p target_subdirs prev d.
Proof.
  pose proof generate_run as Hrun. intros Hres Hd.
  destruct (prepare e) as [err|p].
  - destruct Hrun as [Hr _]. congruence.
  - destruct Hrun as [d' [Hd' Hcase]]. rewrite Hres in Hcase.
    destruct Hcase as [prev Hinv]. exists p, prev. split; [reflexivity|].
    congruence.
Qed.

(** Every operator on the DAG, complete or not, was made from a [.sql]
    file that was read. *)
Lemma registered_units (d : DAG) (t : Operator) :
  registered (generate e) = Some d -> In t (tasks d) ->
  exists p text,
    prepare e = inr p
    /\ In (op_group t) target_subdirs
    /\ is_sql (op_file t) = true
    /\ sql_text e (op_group t) (op_file t) = Some text
    /\ t = make_operator p (op_group t) (op_file t) text.
Proof.
  pose proof generate_run as Hrun. intros Hd Ht.
  destruct (prepare e) as [err|p]; [destruct Hrun; congruence|].
  destruct Hrun as [d' [Hd' Hcase]].
  assert (d' = d) by congruence. subst d'.
  assert (Hfrom : exists l,
             tasks d = map (operator_of e p) l
             /\ Forall (readable e) l
             /\ forall cf, In cf l ->
                  In (fst cf) target_subdirs /\ In (snd cf) (sql_files e (fst cf))).
  { destruct (result (generate e)) as [err|[]].
    - destruct Hcase as (done & c & rest & Hsplit & pre & f & post & Hfs & _ & _ & Htd & Hrd).
      exists (plan_of e done ++ map (pair c) pre)%list.
      split; [exact Htd|]. split; [exact Hrd|].
      intros cf H. apply in_app_iff in H. destruct H as [H|H].
      + apply plan_of_category in H. destruct H as [H1 H2]. split; [|exact H2].
        apply (in_split_left _ _ _ _ _ Hsplit H1).
      + apply in_map_iff in H. destruct H as [f' [<- Hf']]. simpl. split.
        * apply (in_split_mid _ _ _ _ Hsplit).
        * rewrite Hfs. apply in_or_app. now left.
    - destruct Hcase as (prev & Htd & Hrd & _).
      exists (plan_of e target_subdirs).
      split; [exact Htd|]. split; [exact Hrd|].
      intros cf H. now apply plan_of_category in H. }
  destruct Hfrom as (l & Htd & Hrd & Hl).
  rewrite Htd in Ht. apply in_map_iff in Ht. destruct Ht as [[c f] [<- Hcf]].
  rewrite Forall_forall in Hrd. specialize (Hrd _ Hcf). specialize (Hl _ Hcf).
  unfold readable in Hrd. simpl in Hrd, Hl. destruct Hl as [Hc Hf].
  unfold sql_files in Hf. apply filter_In in Hf. destruct Hf as [_ Hsql].
  unfold operator_of. simpl.
  destruct (sql_text e c f) as [text|] eqn:Htext; [|contradiction].
  exists p, text. auto.
Qed.

End Runs.

(** ** The text and the identifier of a unit *)




(** C8: the unit made from the file [report.sql.sql] gets the identifier
    [report], while the file name without its extension is [report.sql]:
    line 92 removes every [.sql] of the name, not the trailing one alone. *)
Theorem task_id_of_double_suffix :
  make_task_id "report.sql.sql" = "report"
  /\ without_extension "report.sql.sql" = "report.sql"
  /\ map task_id (units_registered (generate Examples.env_double_suffix)) = ["report"]
  /\ map op_file (units_registered (generate Examples.env_double_suffix))
     = ["report.sql.sql"].
Proof. repeat split. Qed.

(** ** The parameters of a unit *)

Section ParamsFacts.

Variable e : Env.

Lemma prepare_ok (p : Prepared) :
  prepare e = inr p ->
  exists config conn database readme,
    snowflake_ci_yml e = ConfigLoaded config
    /\ connections e (SNOWFLAKE_CONN_ID p) = Some conn
    /\ extra_database conn = Some database
    /\ readme_md e = Some readme
    /\ SNOWFLAKE_CONN_ID p = get_default (cfg_SNOWFLAKE_CONN_ID config) "DEFAULT_CONNECTION"
    /\ SNOWFLAKE_SCHEMA p = database ++ "." ++ directory_name e
    /\ resolved_params p = resolve_params e (get_default (cfg_PARAMS config) []).
Proof.
  unfold prepare.
  destruct (snowflake_ci_yml e) as [| |config]; try discriminate.
  destruct (connections e _) as [conn|] eqn:Hconn; [|discriminate].
  destruct (extra_database conn) as [database|] eqn:Hdb; [|discriminate].
  destruct (readme_md e) as [readme|]; [|discriminate].
  intros H. inversion H; subst; clear H. simpl.
  exists config, conn, database, readme. repeat split; auto.
Qed.


(** The dictionary of line 105, entry by entry. *)
Lemma merged_resolved_eq (schema : string) (declared : list string) :
  merged_params schema (resolve_params e declared)
  = ("schema_name",
     if in_dec string_dec "schema_name" declared
     then Variable_get e "schema_name" "" else schema)
      :: filter (other_than "schema_name") (resolve_params e declared).
Proof.
  rewrite merged_params_eq by apply resolve_params_NoDup.
  rewrite resolve_params_get.
  now destruct (in_dec string_dec "schema_name" declared).
Qed.

End ParamsFacts.

(** C4, as stated, fails: with [schema_name] declared as a parameter and a
    variable of that name holding [OTHER], the units get [OTHER] under the
    key [schema_name], not the schema [DB.SALES] the script resolved. *)
Lemma collision_takes_variable_value :
  exists d t p,
    registered (generate Examples.env_collision) = Some d
    /\ In t (tasks d)
    /\ prepare Examples.env_collision = inr p
    /\ SNOWFLAKE_SCHEMA p = "DB.SALES"
    /\ PyDict.get "schema_name" (params t) = Some "OTHER"
    /\ PyDict.get "schema_name" (params t) <> Some (SNOWFLAKE_SCHEMA p).
Proof.
  exists (Examples.the_dag Examples.env_collision),
         (Examples.the_unit Examples.env_collision 0).
  vm_compute. eexists. split; [reflexivity|]. split; [left; reflexivity|].
  split; [reflexivity|]. split; [reflexivity|]. split; [reflexivity|].
  discriminate.
Qed.

(** C4 (amended). In the parameter dictionary of every unit the entry with
    the key [schema_name] comes first, and the parameters resolved from the
    variables follow in their order. When [schema_name] is itself a declared
    parameter name, the value resolved for that parameter replaces the
    schema name under the key (the later entry of the merge overrides the
    earlier one); otherwise the value is the resolved schema. *)
Theorem schema_name_first_and_overridden :
  forall (e : Env) (d : DAG) (t : Operator),
    registered (generate e) = Some d -> In t (tasks d) ->
    exists config p,
      snowflake_ci_yml e = ConfigLoaded config
      /\ prepare e = inr p
      /\ params t
         = ("schema_name",
            if in_dec string_dec "schema_name" (get_default (cfg_PARAMS config) [])
            then Variable_get e "schema_name" ""
            else SNOWFLAKE_SCHEMA p)
             :: filter (other_than "schema_name")
                  (resolve_params e (get_default (cfg_PARAMS config) [])).
Proof.
  intros e d t Hd Ht.
  destruct (registered_units e d t Hd Ht) as (p & text & Hp & _ & _ & _ & Hmake).
  destruct (prepare_ok e p Hp) as (config & conn & database & readme & Hc & _ & _ & _ & _ & _ & Hres).
  exists config, p. split; [exact Hc|]. split; [exact Hp|].
  rewrite Hmake. cbn [params make_operator]. rewrite Hres.
  apply merged_resolved_eq.
Qed.

Lemma schema_name_overridden_witness :
  exists config p,
    snowflake_ci_yml Examples.env_collision = ConfigLoaded config
    /\ prepare Examples.env_collision = inr p
    /\ params (Examples.the_unit Examples.env_collision 0)
       = ("schema_name",
          if in_dec string_dec "schema_name" (get_default (cfg_PARAMS config) [])
          then Variable_get Examples.env_collision "schema_name" ""
          else SNOWFLAKE_SCHEMA p)
           :: filter (other_than "schema_name")
                (resolve_params Examples.env_collision
                   (get_default (cfg_PARAMS config) [])).
Proof.
  exact (schema_name_first_and_overridden Examples.env_collision
           (Examples.the_dag Examples.env_collision)
           (Examples.the_unit Examples.env_collision 0)
           eq_refl (or_introl eq_refl)).
Defined.



(** ** Runs that abort *)



(** C10. Without a description file the run ends with an error before the
    DAG is created: no DAG and no unit is registered. With the configuration
    and the connection in order, the error is the one of the description
    file. *)
Theorem missing_readme_aborts_before_dag :
  forall e : Env,
    readme_md e = None ->
    (exists err, result (generate e) = inl err)
    /\ registered (generate e) = None
    /\ units_registered (generate e) = []
    /\ (forall config conn database,
           snowflake_ci_yml e = ConfigLoaded config ->
           connections e (get_default (cfg_SNOWFLAKE_CONN_ID config) "DEFAULT_CONNECTION")
           = Some conn ->
           extra_database conn = Some database ->
           result (generate e) = inl ReadmeNotReadable).
Proof.
  intros e Hreadme. pose proof (generate_run e) as Hrun.
  destruct (prepare e) as [err|p] eqn:Hp.
  - destruct Hrun as [Hres Hnone].
    split; [now exists err|]. split; [exact Hnone|].
    split; [unfold units_registered; now rewrite Hnone|].
    intros config conn database Hc Hconn Hdb.
    rewrite Hres. f_equal.
    unfold prepare in Hp. rewrite Hc, Hconn, Hdb, Hreadme in Hp. congruence.
  - destruct (prepare_ok e p Hp) as (config & conn & database & readme & _ & _ & _ & Hr & _).
    congruence.
Qed.

Lemma missing_readme_witness :
  (exists err, result (generate Examples.env_no_readme) = inl err)
  /\ registered (generate Examples.env_no_readme) = None
  /\ units_registered (generate Examples.env_no_readme) = []
  /\ (forall config conn database,
         snowflake_ci_yml Examples.env_no_readme = ConfigLoaded config ->
         connections Examples.env_no_readme
           (get_default (cfg_SNOWFLAKE_CONN_ID config) "DEFAULT_CONNECTION")
         = Some conn ->
         extra_database conn = Some database ->
         result (generate Examples.env_no_readme) = inl ReadmeNotReadable).
Proof. exact (missing_readme_aborts_before_dag Examples.env_no_readme eq_refl). Defined.

(** ** The chain *)

Section ChainFacts.

Lemma target_subdirs_NoDup : NoDup target_subdirs.
Proof.
  unfold target_subdirs.
  repeat (constructor; [simpl; intuition discriminate|]). constructor.
Qed.

Lemma adjacent_in {A : Type} (l : list A) (x y : A) :
  In (x, y) (adjacent l) -> In x l /\ In y l.
Proof.
  induction l as [|a r IH]; [intros []|].
  destruct r as [|b r']; [intros []|].
  change (adjacent (a :: b :: r')) with ((a, b) :: adjacent (b :: r')).
  intros [Heq|Hin].
  - inversion Heq; subst. split; [now left | right; now left].
  - destruct (IH Hin) as [Hx Hy]. split; now right.
Qed.

Lemma adjacent_mid {A : Type} (l r : list A) (x y : A) :
  In (x, y) (adjacent (l ++ x :: y :: r)).
Proof.
  induction l as [|a l' IH].
  - now left.
  - destruct l' as [|b l'']; simpl app in *.
    + right. exact IH.
    + change (adjacent (a :: b :: (l'' ++ x :: y :: r)%list))
        with ((a, b) :: adjacent (b :: (l'' ++ x :: y :: r)%list)).
      right. exact IH.
Qed.

Lemma hd_rev_seq (a m : nat) : 0 < m -> hd_error (rev (seq a m)) = Some (a + m - 1).
Proof.
  destruct m as [|k]; [lia|]. intros _.
  rewrite seq_S, rev_app_distr. simpl. f_equal. lia.
Qed.

Lemma hd_seq (a m : nat) : 0 < m -> hd_error (seq a m) = Some a.
Proof. destruct m; [lia | reflexivity]. Qed.

Variable e : Env.

Lemma plan_of_without_files (cs : list string) :
  Forall (fun g => has_files e g = false) cs -> plan_of e cs = [].
Proof.
  intros Hall. apply plan_of_empty. apply filter_all_false.
  now apply Forall_forall.
Qed.

Lemma sql_files_of_no_entries (c : string) :
  listdir e c = None
  \/ (exists entries, listdir e c = Some entries /\ filter is_sql entries = []) ->
  sql_files e c = [].
Proof.
  intros [Habsent|[entries [Hdir Hnone]]].
  - now apply sql_files_absent.
  - apply Permutation_nil. rewrite <- Hnone.
    pose proof (sql_files_perm e c) as Hperm.
    unfold sql_entries in Hperm. now rewrite Hdir in Hperm.
Qed.

Variable p : Prepared.
Variable d : DAG.
Hypothesis built : tasks d = map (operator_of e p) (plan e).

(** The units of a category sit in one block of the creation order. *)
Lemma members_block (before after : list string) (g : string) :
  target_subdirs = (before ++ g :: after)%list ->
  Airflow.members g d
  = seq (List.length (plan_of e before)) (List.length (sql_files e g)).
Proof.
  intros Hsplit.
  pose proof target_subdirs_NoDup as Hnd. rewrite Hsplit in Hnd.
  assert (Hleft : ~ In g before).
  { apply NoDup_remove_2 in Hnd. intros H. apply Hnd. apply in_or_app. now left. }
  assert (Hright : ~ In g after).
  { apply NoDup_remove_2 in Hnd. intros H. apply Hnd. apply in_or_app. now right. }
  unfold Airflow.members. rewrite built. unfold plan. rewrite Hsplit, plan_of_app.
  change (plan_of e (g :: after))
    with (map (pair g) (sql_files e g) ++ plan_of e after)%list.
  rewrite !map_app, !members_from_app.
  rewrite (members_from_none g _ 0 (operators_outside e p before g Hleft)).
  rewrite (members_from_none g _ _ (operators_outside e p after g Hright)).
  fold (operators_of e p g (sql_files e g)).
  rewrite (members_from_all g _ _ (operators_inside e p g (sql_files e g))).
  rewrite operators_of_length, !length_map, app_nil_r. reflexivity.
Qed.

End ChainFacts.

(** C7. The links of a generated pipeline are those of a single chain: with
    the units numbered in creation order, unit [x] is linked to unit [y]
    exactly when [y] is the next unit. Hence a unit has at most one unit
    directly downstream and at most one directly upstream, and a link joins
    two units of the pipeline. *)
Theorem dependency_graph_is_one_chain :
  forall (e : Env) (d : DAG),
    result (generate e) = inr tt -> registered (generate e) = Some d ->
    (forall x y, In (x, y) (edges d) <-> y = S x /\ y < List.length (tasks d))
    /\ (forall x y z, In (x, y) (edges d) -> In (x, z) (edges d) -> y = z)
    /\ (forall x y z, In (y, x) (edges d) -> In (z, x) (edges d) -> y = z)
    /\ (forall x y, In (x, y) (edges d) ->
                    x < List.length (tasks d) /\ y < List.length (tasks d)).
Proof.
  intros e d Hres Hd.
  destruct (generate_success e d Hres Hd) as (p & prev & _ & _ & _ & Hlin & _).
  split; [exact Hlin|]. split; [|split].
  - intros x y z H H0. apply Hlin in H. apply Hlin in H0. lia.
  - intros x y z H H0. apply Hlin in H. apply Hlin in H0. lia.
  - intros x y H. apply Hlin in H. lia.
Qed.

Lemma dependency_graph_witness :
  (forall x y, In (x, y) (edges (Examples.the_dag Examples.env0))
               <-> y = S x /\ y < List.length (tasks (Examples.the_dag Examples.env0)))
  /\ (forall x y z, In (x, y) (edges (Examples.the_dag Examples.env0)) ->
                    In (x, z) (edges (Examples.the_dag Examples.env0)) -> y = z)
  /\ (forall x y z, In (y, x) (edges (Examples.the_dag Examples.env0)) ->
                    In (z, x) (edges (Examples.the_dag Examples.env0)) -> y = z)
  /\ (forall x y, In (x, y) (edges (Examples.the_dag Examples.env0)) ->
                  x < List.length (tasks (Examples.the_dag Examples.env0))
                  /\ y < List.length (tasks (Examples.the_dag Examples.env0))).
Proof.
  exact (dependency_graph_is_one_chain Examples.env0
           (Examples.the_dag Examples.env0) eq_refl eq_refl).
Defined.

(** C1. In a generated pipeline the units, in creation order, are the
    [.sql] files of the ten categories taken category by category in the
    fixed order, and within a category in increasing order of file name
    (each [.sql] entry of the directory once); every unit is linked to the
    next one, and the task groups of the categories that have units are
    linked in the fixed order. For two categories [a] before [b] of the
    fixed list, [a] with the files [2.sql], [1.sql] and [b] with [x.sql],
    the order is [a/1.sql -> a/2.sql -> b/x.sql]. *)
Theorem units_chained_in_sorted_order :
  (forall (e : Env) (d : DAG),
      result (generate e) = inr tt -> registered (generate e) = Some d ->
      map unit_name (tasks d)
      = flat_map (fun c => map (pair c) (sql_files e c)) target_subdirs
      /\ (forall c, StronglySorted str_le (sql_files e c)
                    /\ Permutation (sql_entries e c) (sql_files e c))
      /\ (forall x y, In (x, y) (edges d) <-> y = S x /\ y < List.length (tasks d))
      /\ group_edges d = adjacent (nonempty_categories e))
  /\ (forall a b,
         In (a, b) (ordered_pairs target_subdirs) ->
         result (generate (Examples.env_two a b)) = inr tt
         /\ map unit_name (units_registered (generate (Examples.env_two a b)))
            = [(a, "1.sql"); (a, "2.sql"); (b, "x.sql")]
         /\ option_map edges (registered (generate (Examples.env_two a b)))
            = Some [(0, 1); (1, 2)]
         /\ option_map group_edges (registered (generate (Examples.env_two a b)))
            = Some [(a, b)]).
Proof.
  split.
  - intros e d Hres Hd.
    destruct (generate_success e d Hres Hd)
      as (p & prev & _ & Ht & _ & Hlin & Hge & _).
    split; [|split; [|split]].
    + rewrite Ht. apply unit_names_plan.
    + intros c. split; [apply sql_files_ordered | apply sql_files_perm].
    + exact Hlin.
    + exact Hge.
  - intros a b Hab.
    assert (Hall : Forall (fun ab =>
                     result (generate (Examples.env_two (fst ab) (snd ab))) = inr tt
                     /\ map unit_name
                          (units_registered (generate (Examples.env_two (fst ab) (snd ab))))
                        = [(fst ab, "1.sql"); (fst ab, "2.sql"); (snd ab, "x.sql")]
                     /\ option_map edges
                          (registered (generate (Examples.env_two (fst ab) (snd ab))))
                        = Some [(0, 1); (1, 2)]
                     /\ option_map group_edges
                          (registered (generate (Examples.env_two (fst ab) (snd ab))))
                        = Some [(fst ab, snd ab)])
                  (ordered_pairs target_subdirs)).
    { repeat (constructor; [vm_compute; repeat split|]). constructor. }
    rewrite Forall_forall in Hall. exact (Hall (a, b) Hab).
Qed.

Lemma units_chained_witness :
  (map unit_name (tasks (Examples.the_dag Examples.env_AB))
   = flat_map (fun c => map (pair c) (sql_files Examples.env_AB c)) target_subdirs
   /\ (forall c, StronglySorted str_le (sql_files Examples.env_AB c)
                 /\ Permutation (sql_entries Examples.env_AB c)
                                (sql_files Examples.env_AB c))
   /\ (forall x y, In (x, y) (edges (Examples.the_dag Examples.env_AB))
                   <-> y = S x
                       /\ y < List.length (tasks (Examples.the_dag Examples.env_AB)))
   /\ group_edges (Examples.the_dag Examples.env_AB)
      = adjacent (nonempty_categories Examples.env_AB))
  /\ (result (generate Examples.env_AB) = inr tt
      /\ map unit_name (units_registered (generate Examples.env_AB))
         = [("tables", "1.sql"); ("tables", "2.sql"); ("views", "x.sql")]
      /\ option_map edges (registered (generate Examples.env_AB))
         = Some [(0, 1); (1, 2)]
      /\ option_map group_edges (registered (generate Examples.env_AB))
         = Some [("tables", "views")]).
Proof.
  split.
  - exact (proj1 units_chained_in_sorted_order Examples.env_AB
             (Examples.the_dag Examples.env_AB) eq_refl eq_refl).
  - apply (proj2 units_chained_in_sorted_order "tables" "views").
    vm_compute. tauto.
Defined.

(** C6. In a generated pipeline a category whose directory is absent, or
    holds no [.sql] file, has no unit and its task group takes part in no
    link. Two categories with units that have only such categories between
    them are linked directly: the last unit of the first is linked to the
    first unit of the second, and so are their task groups. *)
Theorem empty_category_is_skipped :
  forall (e : Env) (d : DAG) (c : string),
    result (generate e) = inr tt -> registered (generate e) = Some d ->
    (listdir e c = None
     \/ exists entries, listdir e c = Some entries /\ filter is_sql entries = []) ->
    (forall t, In t (tasks d) -> op_group t <> c)
    /\ Airflow.members c d = []
    /\ (forall g, ~ In (c, g) (group_edges d) /\ ~ In (g, c) (group_edges d))
    /\ (forall before g1 between g2 after,
           target_subdirs = (before ++ g1 :: between ++ g2 :: after)%list ->
           has_files e g1 = true -> has_files e g2 = true ->
           Forall (fun g => has_files e g = false) between ->
           exists i,
             last_of g1 d = Some i
             /\ first_of g2 d = Some (S i)
             /\ In (i, S i) (edges d)
             /\ In (g1, g2) (group_edges d)).
Proof.
  intros e d c Hres Hd Hempty.
  destruct (generate_success e d Hres Hd)
    as (p & prev & _ & Ht & _ & Hlin & Hge & _).
  pose proof (sql_files_of_no_entries e c Hempty) as Hfs.
  assert (Hnone : forall t, In t (tasks d) -> op_group t <> c).
  { intros t Hin Hgroup. rewrite Ht in Hin.
    apply in_map_iff in Hin. destruct Hin as [[c' f] [<- Hcf]].
    apply plan_of_category in Hcf. simpl in Hcf, Hgroup. subst c'.
    rewrite Hfs in Hcf. now destruct Hcf. }
  split; [exact Hnone|]. split.
  { unfold Airflow.members. apply members_from_none.
    now apply Forall_forall. }
  split.
  { assert (Hout : ~ In c (filter (has_files e) target_subdirs)).
    { intros Hin. apply filter_In in Hin. destruct Hin as [_ Hhas].
      now rewrite (has_files_false e c Hfs) in Hhas. }
    intros g. rewrite Hge. split; intros Hin; apply adjacent_in in Hin;
      apply Hout; tauto. }
  intros before g1 between g2 after Hsplit H1 H2 Hbetween.
  assert (Hm1 : 0 < List.length (sql_files e g1)).
  { unfold has_files in H1. destruct (sql_files e g1); [discriminate | simpl; lia]. }
  assert (Hm2 : 0 < List.length (sql_files e g2)).
  { unfold has_files in H2. destruct (sql_files e g2); [discriminate | simpl; lia]. }
  pose proof (members_block e p d Ht before (between ++ g2 :: after) g1 Hsplit) as Hg1.
  assert (Hsplit2 : target_subdirs = ((before ++ g1 :: between) ++ g2 :: after)%list).
  { rewrite Hsplit, <- app_assoc. reflexivity. }
  pose proof (members_block e p d Ht (before ++ g1 :: between) after g2 Hsplit2) as Hg2.
  assert (Hoff : List.length (plan_of e (before ++ g1 :: between))
                 = List.length (plan_of e before) + List.length (sql_files e g1)).
  { rewrite plan_of_app.
    change (plan_of e (g1 :: between))
      with (map (pair g1) (sql_files e g1) ++ plan_of e between)%list.
    rewrite (plan_of_without_files e between Hbetween).
    rewrite !length_app, length_map. simpl. lia. }
  assert (Hlen : List.length (plan_of e before) + List.length (sql_files e g1)
                 + List.length (sql_files e g2) <= List.length (tasks d)).
  { rewrite Ht, length_map. unfold plan. rewrite Hsplit2, plan_of_app, length_app, Hoff.
    change (plan_of e (g2 :: after))
      with (map (pair g2) (sql_files e g2) ++ plan_of e after)%list.
    rewrite length_app, length_map. lia. }
  exists (List.length (plan_of e before) + List.length (sql_files e g1) - 1).
  split; [|split; [|split]].
  - unfold last_of. rewrite Hg1. now apply hd_rev_seq.
  - unfold first_of. rewrite Hg2, Hoff, hd_seq by exact Hm2. f_equal. lia.
  - apply Hlin. lia.
  - rewrite Hge, Hsplit, !filter_app. cbn [filter]. rewrite H1.
    rewrite filter_app. cbn [filter]. rewrite H2.
    rewrite (filter_all_false (has_files e) between)
      by (now apply Forall_forall).
    apply adjacent_mid.
Qed.

Lemma empty_category_witness :
  (forall t, In t (tasks (Examples.the_dag Examples.env_gap)) -> op_group t <> "tables")
  /\ Airflow.members "tables" (Examples.the_dag Examples.env_gap) = []
  /\ (forall g, ~ In ("tables", g) (group_edges (Examples.the_dag Examples.env_gap))
                /\ ~ In (g, "tables") (group_edges (Examples.the_dag Examples.env_gap)))
  /\ (exists i,
         last_of "stages" (Examples.the_dag Examples.env_gap) = Some i
         /\ first_of "views" (Examples.the_dag Examples.env_gap) = Some (S i)
         /\ In (i, S i) (edges (Examples.the_dag Examples.env_gap))
         /\ In ("stages", "views") (group_edges (Examples.the_dag Examples.env_gap))).
Proof.
  pose proof (empty_category_is_skipped Examples.env_gap
                (Examples.the_dag Examples.env_gap) "tables" eq_refl eq_refl
                (or_intror (ex_intro _ ["notes.txt"] (conj eq_refl eq_refl))))
    as (Hunits & Hmembers & Hgroups & Hbridge).
  split; [exact Hunits|]. split; [exact Hmembers|]. split; [exact Hgroups|].
  apply (Hbridge ["file_formats"] "stages" ["tables"] "views"
           ["sequences"; "streams"; "functions"; "procedures"; "tasks"; "dml"]);
    try reflexivity.
  constructor; [reflexivity | constructor].
Defined.

(** ** Two runs on the same inputs *)

Section ClockFree.

Lemma clock_free_ret {A : Type} (a : A) : clock_free (ret a).
Proof. intros d. reflexivity. Qed.

Lemma clock_free_raise {A : Type} (err : Error) : clock_free (raise (A := A) err).
Proof. intros d. reflexivity. Qed.

Lemma clock_free_bind {A B : Type} (c : Build A) (k : A -> Build B) :
  clock_free c -> (forall a, clock_free (k a)) -> clock_free (bind c k).
Proof.
  intros Hc Hk d. unfold bind. rewrite (Hc d).
  destruct (c d) as [[err|a] d']; simpl; [reflexivity|].
  apply Hk.
Qed.

Lemma clock_free_for_each {A S : Type} (l : list A) (body : S -> A -> Build S) :
  (forall s x, clock_free (body s x)) -> forall s, clock_free (for_each l body s).
Proof.
  intros Hbody. induction l as [|x r IH]; intros s; simpl.
  - apply clock_free_ret.
  - apply clock_free_bind; [apply Hbody | exact IH].
Qed.

Lemma clock_free_file_step (e : Env) (p : Prepared) (c : string)
    (st : option task_ref * nat) (file : string) :
  clock_free (file_step e p c st file).
Proof.
  unfold file_step. destruct st as [prev n].
  destruct (is_sql file); [|apply clock_free_ret].
  apply clock_free_bind.
  { unfold read_sql. destruct (sql_text e c file);
      [apply clock_free_ret | apply clock_free_raise]. }
  intros text. apply clock_free_bind; [intros d; reflexivity|].
  intros task. apply clock_free_bind; [|intros _; apply clock_free_ret].
  destruct prev; [intros d; reflexivity | apply clock_free_ret].
Qed.

Lemma clock_free_subdir_step (e : Env) (p : Prepared)
    (prev : option string) (c : string) :
  clock_free (subdir_step e p prev c).
Proof.
  unfold subdir_step. destruct (listdir e c) as [entries|]; [|apply clock_free_ret].
  apply clock_free_bind; [intros d; reflexivity|]. intros _.
  apply clock_free_bind; [apply clock_free_for_each, clock_free_file_step|].
  intros st. destruct (snd st <? 1)%nat; [apply clock_free_ret|].
  apply clock_free_bind; [|intros _; apply clock_free_ret].
  destruct prev; [intros d; reflexivity | apply clock_free_ret].
Qed.

Lemma for_each_ext {A S : Type} (l : list A) (body1 body2 : S -> A -> Build S) :
  (forall s x d, body1 s x d = body2 s x d) ->
  forall s d, for_each l body1 s d = for_each l body2 s d.
Proof.
  intros Hext. induction l as [|x r IH]; intros s d; simpl; [reflexivity|].
  unfold bind. rewrite Hext. destruct (body2 s x d) as [[err|s'] d']; auto.
Qed.

Variables e1 e2 : Env.
Hypothesis same : same_inputs e1 e2.

Lemma resolve_params_same (ps : list string) :
  resolve_params e1 ps = resolve_params e2 ps.
Proof.
  unfold resolve_params. generalize (@nil (string * string)).
  induction ps as [|k r IH]; intros acc; simpl; [reflexivity|].
  unfold store_param at 2 4.
  replace (Variable_get e1 k "") with (Variable_get e2 k "")
    by (unfold Variable_get; now rewrite (same_variables e1 e2 same k)).
  apply IH.
Qed.

Lemma prepare_same : prepare e1 = prepare e2.
Proof.
  unfold prepare.
  rewrite (same_config e1 e2 same), (same_readme e1 e2 same),
    (same_parent e1 e2 same), (same_directory e1 e2 same).
  destruct (snowflake_ci_yml e2) as [| |config]; try reflexivity.
  rewrite (same_connections e1 e2 same).
  destruct (connections e2 _) as [conn|]; [|reflexivity].
  destruct (extra_database conn); [|reflexivity].
  destruct (readme_md e2); [|reflexivity].
  now rewrite resolve_params_same.
Qed.

Lemma file_step_same (p : Prepared) (c : string) (st : option task_ref * nat)
    (file : string) (d : DAG) :
  file_step e1 p c st file d = file_step e2 p c st file d.
Proof.
  unfold file_step, read_sql. now rewrite (same_sql e1 e2 same c file).
Qed.

Lemma subdir_step_same (p : Prepared) (prev : option string) (c : string) (d : DAG) :
  subdir_step e1 p prev c d = subdir_step e2 p prev c d.
Proof.
  unfold subdir_step. pose proof (same_dirs e1 e2 same c) as Hdir.
  destruct (listdir e1 c) as [l1|], (listdir e2 c) as [l2|]; simpl in Hdir;
    try contradiction; [|reflexivity].
  rewrite (sorted_of_permutation l1 l2 Hdir).
  unfold bind at 1 3. simpl.
  unfold bind at 1 3.
  rewrite (for_each_ext (PyStr.sorted l2) (file_step e1 p c) (file_step e2 p c)
             (file_step_same p c)).
  reflexivity.
Qed.

Lemma loop_same (p : Prepared) (d : DAG) :
  for_each target_subdirs (subdir_step e1 p) None d
  = for_each target_subdirs (subdir_step e2 p) None d.
Proof. apply for_each_ext. intros s x d'. apply subdir_step_same. Qed.

End ClockFree.

Lemma env0_later_same_inputs : same_inputs Examples.env0 Examples.env0_later.
Proof.
  constructor; try reflexivity.
  intros c. simpl.
  destruct (c =? "tables").
  - simpl. apply Permutation_sym.
    apply (Permutation_cons_append ["2.sql"; "notes.txt"] "1.sql").
  - destruct (c =? "views"); [apply Permutation_refl|].
    destruct (c =? "stages"); [apply Permutation_refl | exact I].
Qed.

(** C9. Two runs that read the same files with the same contents, the same
    configuration, the same connection registry and the same variables end
    the same way and build the same DAG: the same task groups, the same
    units with the same identifier, text and parameters, and the same links.
    Neither the order in which a directory lists its entries nor the day of
    the run makes a difference (the start date, one day before the run, is
    the only part of the DAG that follows the day). *)
Theorem generation_is_deterministic :
  forall e1 e2 : Env,
    same_inputs e1 e2 ->
    result (generate e1) = result (generate e2)
    /\ option_map without_clock (registered (generate e1))
       = option_map without_clock (registered (generate e2))
    /\ option_map tasks (registered (generate e1))
       = option_map tasks (registered (generate e2))
    /\ option_map edges (registered (generate e1))
       = option_map edges (registered (generate e2))
    /\ option_map group_edges (registered (generate e1))
       = option_map group_edges (registered (generate e2)).
Proof.
  intros e1 e2 Hsame.
  assert (Hmain : result (generate e1) = result (generate e2)
                  /\ option_map without_clock (registered (generate e1))
                     = option_map without_clock (registered (generate e2))).
  { unfold generate. rewrite (prepare_same e1 e2 Hsame).
    destruct (prepare e2) as [err|p]; [now split|].
    rewrite (loop_same e1 e2 Hsame p (new_dag e1 p)).
    pose proof (clock_free_for_each target_subdirs (subdir_step e2 p)
                  (clock_free_subdir_step e2 p) None) as Hfree.
    pose proof (Hfree (new_dag e1 p)) as H1.
    pose proof (Hfree (new_dag e2 p)) as H2.
    change (without_clock (new_dag e1 p)) with (without_clock (new_dag e2 p)) in H1.
    rewrite H2 in H1.
    destruct (for_each target_subdirs (subdir_step e2 p) None (new_dag e1 p))
      as [r1 d1].
    destruct (for_each target_subdirs (subdir_step e2 p) None (new_dag e2 p))
      as [r2 d2].
    pose proof (f_equal fst H1) as Hr. pose proof (f_equal snd H1) as Hd.
    cbn [fst snd] in Hr, Hd. subst r2.
    destruct r1 as [err|u]; cbn [result registered option_map]; now rewrite Hd. }
  destruct Hmain as [Hres Hdag]. split; [exact Hres|]. split; [exact Hdag|].
  destruct (registered (generate e1)) as [d1|], (registered (generate e2)) as [d2|];
    simpl in Hdag; try discriminate; [|now repeat split].
  assert (Hwc : without_clock d1 = without_clock d2) by congruence.
  pose proof (f_equal tasks Hwc) as Htasks.
  pose proof (f_equal edges Hwc) as Hedges.
  pose proof (f_equal group_edges Hwc) as Hge.
  simpl in Htasks, Hedges, Hge. simpl. now rewrite Htasks, Hedges, Hge.
Qed.

Lemma generation_is_deterministic_witness :
  result (generate Examples.env0) = result (generate Examples.env0_later)
  /\ option_map without_clock (registered (generate Examples.env0))
     = option_map without_clock (registered (generate Examples.env0_later))
  /\ option_map tasks (registered (generate Examples.env0))
     = option_map tasks (registered (generate Examples.env0_later))
  /\ option_map edges (registered (generate Examples.env0))
     = option_map edges (registered (generate Examples.env0_later))
  /\ option_map group_edges (registered (generate Examples.env0))
     = option_map group_edges (registered (generate Examples.env0_later)).
Proof.
  exact (generation_is_deterministic Examples.env0 Examples.env0_later
           env0_later_same_inputs).
Defined.

(** ** When a run completes, and how it fails *)

Section Outcomes.

Variable e : Env.

Lemma in_plan_of (cs : list string) (c f : string) :
  In (c, f) (plan_of e cs) <-> In c cs /\ In f (sql_files e c).
Proof.
  split.
  - intros H. now apply plan_of_category in H.
  - intros [Hc Hf]. unfold plan_of. apply in_flat_map. exists c.
    split; [exact Hc | now apply in_map].
Qed.


(** Once the DAG exists, the only error is that of a [.sql] file of the
    plan that does not read. *)
Lemma loop_error_kind (p : Prepared) (err : Error) :
  prepare e = inr p -> result (generate e) = inl err ->
  exists c f, err = SqlNotReadable c f /\ In (c, f) (plan e) /\ sql_text e c f = None.
Proof.
  intros Hp Hres. pose proof (generate_run e) as Hrun. rewrite Hp in Hrun.
  destruct Hrun as [d [_ Hcase]]. rewrite Hres in Hcase.
  destruct Hcase as (done & c & rest & Hsplit & pre & f & post & Hfs & Herr & Htext & _).
  exists c, f. split; [exact Herr|]. split; [|exact Htext].
  apply in_plan_of. split.
  - apply (in_split_mid _ _ _ _ Hsplit).
  - rewrite Hfs. apply in_or_app. right. now left.
Qed.


Lemma prepare_error_result (err : Error) :
  prepare e = inl err -> result (generate e) = inl err.
Proof.
  intros Hp. pose proof (generate_run e) as Hrun. rewrite Hp in Hrun. tauto.
Qed.


End Outcomes.


Ltac settle_failure :=
  repeat match goal with
         | H : exists _, _ |- _ => destruct H
         | H : _ /\ _ |- _ => destruct H
         end;
  subst;
  first [ reflexivity | discriminate | congruence
        | match goal with H : inl _ = inl _ |- _ => inversion H; subst end;
          eauto 10
        | eauto 10 ].

Ltac first_failure Hcases :=
  let err := fresh "err" in
  let p := fresh "p" in
  let Hp := fresh "Hp" in
  let Hres := fresh "Hres" in
  destruct Hcases as [(err & Hp & Hres)|(p & Hp & _)]; [|discriminate];
  inversion Hp; subst err; rewrite Hres;
  repeat match goal with
         | |- _ /\ _ => split
         | |- _ <-> _ => split
         | |- forall _, _ => intro
         end;
  settle_failure.

(** X2. The error of a run names the first thing that failed, in the order
    of the script: the configuration file (absent, then malformed), the
    connection (not found under the configured name or [DEFAULT_CONNECTION],
    then found without a database entry), the description file. A later
    failure never hides an earlier one, and the loop over the files raises
    none of these errors. *)
Theorem error_names_first_failure :
  forall e : Env,
    (result (generate e) = inl ConfigNotFound <-> snowflake_ci_yml e = ConfigAbsent)
    /\ (result (generate e) = inl ConfigInvalid
        <-> snowflake_ci_yml e = ConfigMalformed)
    /\ (forall conn_id,
           result (generate e) = inl (ConnectionNotFound conn_id)
           <-> exists config,
                 snowflake_ci_yml e = ConfigLoaded config
                 /\ conn_id = get_default (cfg_SNOWFLAKE_CONN_ID config)
                                          "DEFAULT_CONNECTION"
                 /\ connections e conn_id = None)
    /\ (result (generate e) = inl DatabaseKeyMissing
        <-> exists config conn,
              snowflake_ci_yml e = ConfigLoaded config
              /\ connections e (get_default (cfg_SNOWFLAKE_CONN_ID config)
                                            "DEFAULT_CONNECTION") = Some conn
              /\ extra_database conn = None)
    /\ (result (generate e) = inl ReadmeNotReadable
        <-> exists config conn database,
              snowflake_ci_yml e = ConfigLoaded config
              /\ connections e (get_default (cfg_SNOWFLAKE_CONN_ID config)
                                            "DEFAULT_CONNECTION") = Some conn
              /\ extra_database conn = Some database
              /\ readme_md e = None).
Proof.
  intros e.
  assert (Hcases :
            (exists err, prepare e = inl err /\ result (generate e) = inl err)
            \/ (exists p, prepare e = inr p
                          /\ (result (generate e) = inr tt
                              \/ exists c f, result (generate e)
                                             = inl (SqlNotReadable c f)))).
  { destruct (prepare e) as [err|p] eqn:Hp.
    - left. exists err. split; [reflexivity | now apply prepare_error_result].
    - right. exists p. split; [reflexivity|].
      destruct (result (generate e)) as [err|[]] eqn:Hres; [right | now left].
      destruct (loop_error_kind e p err Hp Hres) as (c & f & -> & _).
      now exists c, f. }
  unfold prepare in Hcases.
  destruct (snowflake_ci_yml e) as [| |config] eqn:Hc;
    [first_failure Hcases | first_failure Hcases |].
  destruct (connections e (get_default (cfg_SNOWFLAKE_CONN_ID config)
                                       "DEFAULT_CONNECTION")) as [conn|] eqn:Hconn;
    [|first_failure Hcases].
  destruct (extra_database conn) as [database|] eqn:Hdb; [|first_failure Hcases].
  destruct (readme_md e) as [readme|] eqn:Hr; [|first_failure Hcases].
  destruct Hcases as [(err & Hp & _)|(p & _ & Hres)]; [discriminate|].
  assert (Hnot : forall err, (forall c f, err <> SqlNotReadable c f) ->
                             result (generate e) = inl err -> False).
  { intros err Hne H. destruct Hres as [Hres|(c & f & Hres)]; [congruence|].
    rewrite Hres in H. inversion H. now apply (Hne c f). }
  repeat match goal with
         | |- _ /\ _ => split
         | |- _ <-> _ => split
         | |- forall _, _ => intro
         end;
    try (exfalso; eapply Hnot; [|eassumption]; intros; discriminate);
    settle_failure.
Qed.

(** ** The DAG as a whole *)

Section Frames.

Lemma keeps_header_ret {A : Type} (a : A) : keeps_header (ret a).
Proof. intros d. reflexivity. Qed.

Lemma keeps_header_bind {A B : Type} (c : Build A) (k : A -> Build B) :
  keeps_header c -> (forall a, keeps_header (k a)) -> keeps_header (bind c k).
Proof.
  intros Hc Hk d. unfold bind. specialize (Hc d).
  destruct (c d) as [[err|a] d']; simpl in *; [exact Hc|].
  now rewrite (Hk a d').
Qed.

Lemma keeps_header_for_each {A S : Type} (l : list A) (body : S -> A -> Build S) :
  (forall s x, keeps_header (body s x)) -> forall s, keeps_header (for_each l body s).
Proof.
  intros Hbody. induction l as [|x r IH]; intros s; simpl.
  - apply keeps_header_ret.
  - apply keeps_header_bind; [apply Hbody | exact IH].
Qed.

Lemma keeps_header_file_step (e : Env) (p : Prepared) (c : string)
    (st : option task_ref * nat) (file : string) :
  keeps_header (file_step e p c st file).
Proof.
  unfold file_step. destruct st as [prev n].
  destruct (is_sql file); [|apply keeps_header_ret].
  apply keeps_header_bind.
  { unfold read_sql. destruct (sql_text e c file); intros d; reflexivity. }
  intros text. apply keeps_header_bind; [intros d; reflexivity|].
  intros task. apply keeps_header_bind; [|intros _; apply keeps_header_ret].
  destruct prev; intros d; reflexivity.
Qed.

Lemma keeps_header_subdir_step (e : Env) (p : Prepared)
    (prev : option string) (c : string) :
  keeps_header (subdir_step e p prev c).
Proof.
  unfold subdir_step. destruct (listdir e c) as [entries|]; [|apply keeps_header_ret].
  apply keeps_header_bind; [intros d; reflexivity|]. intros _.
  apply keeps_header_bind; [apply keeps_header_for_each, keeps_header_file_step|].
  intros st. destruct (snd st <? 1)%nat; [apply keeps_header_ret|].
  apply keeps_header_bind; [|intros _; apply keeps_header_ret].
  destruct prev; intros d; reflexivity.
Qed.

Lemma keeps_groups_ret {A : Type} (a : A) : keeps_groups (ret a).
Proof. intros d. reflexivity. Qed.

Lemma keeps_groups_bind {A B : Type} (c : Build A) (k : A -> Build B) :
  keeps_groups c -> (forall a, keeps_groups (k a)) -> keeps_groups (bind c k).
Proof.
  intros Hc Hk d. unfold bind. specialize (Hc d).
  destruct (c d) as [[err|a] d']; simpl in *; [exact Hc|].
  now rewrite (Hk a d').
Qed.

Lemma keeps_groups_file_loop (e : Env) (p : Prepared) (c : string)
    (files : list string) :
  forall st, keeps_groups (for_each files (file_step e p c) st).
Proof.
  induction files as [|x r IH]; intros st; simpl; [apply keeps_groups_ret|].
  apply keeps_groups_bind; [|exact IH].
  unfold file_step. destruct st as [prev n].
  destruct (is_sql x); [|apply keeps_groups_ret].
  apply keeps_groups_bind.
  { unfold read_sql. destruct (sql_text e c x); intros d; reflexivity. }
  intros text. apply keeps_groups_bind; [intros d; reflexivity|].
  intros task. apply keeps_groups_bind; [|intros _; apply keeps_groups_ret].
  destruct prev; intros d; reflexivity.
Qed.

Variable e : Env.
Variable p : Prepared.

Lemma groups_step (done : list string) (c : string) (prev : option string) (d : DAG) :
  groups_inv e done prev d ->
  match subdir_step e p prev c d with
  | (inr prev', d') => groups_inv e (done ++ [c]) prev' d'
  | (inl err, d') => groups_fail e done c err d'
  end.
Proof.
  unfold groups_inv, groups_fail. intros Hg.
  assert (Hdone : filter (is_dir e) (done ++ [c])
                  = (filter (is_dir e) done ++ if is_dir e c then [c] else [])%list).
  { rewrite filter_app. simpl. now destruct (is_dir e c). }
  unfold subdir_step, is_dir in *.
  destruct (listdir e c) as [entries|] eqn:Hdir.
  2: { unfold ret. now rewrite Hdone, app_nil_r. }
  unfold bind at 1. unfold Airflow.TaskGroup.
  set (d1 := with_groups d (dag_groups d ++ [c])).
  unfold bind at 1.
  pose proof (file_loop_run e p c (tasks d1) (edges d1) (group_edges d1)
                (PyStr.sorted entries) d1 eq_refl eq_refl eq_refl) as Hrun.
  pose proof (keeps_groups_file_loop e p c (PyStr.sorted entries) (None, 0) d1) as Hkeep.
  destruct (for_each (PyStr.sorted entries) (file_step e p c) (None, 0) d1)
    as [[err|st] d2]; simpl in Hkeep.
  - destruct Hrun as (pre & x & post & _ & Herr & _).
    split; [now exists x|]. split; [reflexivity|].
    rewrite Hkeep. unfold d1. simpl. now rewrite Hg.
  - rewrite Hdone.
    destruct (snd st <? 1)%nat.
    + unfold ret. rewrite Hkeep. unfold d1. simpl. now rewrite Hg.
    + unfold bind. destruct prev; unfold Airflow.group_set_downstream, ret; simpl;
        rewrite Hkeep; unfold d1; simpl; now rewrite Hg.
Qed.

Lemma groups_loop_run :
  match for_each target_subdirs (subdir_step e p) None (new_dag e p) with
  | (inr prev, d) => dag_groups d = filter (is_dir e) target_subdirs
  | (inl err, d) =>
      exists done c rest,
        target_subdirs = (done ++ c :: rest)%list /\ groups_fail e done c err d
  end.
Proof.
  apply (for_each_rule (subdir_step e p) target_subdirs (groups_inv e) (groups_fail e)).
  - intros done c rest prev d _ Hinv. now apply groups_step.
  - reflexivity.
Qed.

End Frames.

Section WholeDag.

Variable e : Env.

Lemma generate_dag (p : Prepared) :
  prepare e = inr p ->
  registered (generate e)
  = Some (snd (for_each target_subdirs (subdir_step e p) None (new_dag e p)))
  /\ result (generate e)
     = match fst (for_each target_subdirs (subdir_step e p) None (new_dag e p)) with
       | inl err => inl err
       | inr _ => inr tt
       end.
Proof.
  intros Hp. unfold generate. rewrite Hp.
  now destruct (for_each target_subdirs (subdir_step e p) None (new_dag e p))
    as [[err|prev] d].
Qed.

Lemma prepare_fields (p : Prepared) :
  prepare e = inr p ->
  exists config readme,
    snowflake_ci_yml e = ConfigLoaded config
    /\ readme_md e = Some readme
    /\ dynamic_dag_id p = parent_dir_name e ++ "_" ++ directory_name e
    /\ OWNER p = get_default (cfg_OWNER config) "DEFAULT_OWNER"
    /\ TAGS p = (get_default (cfg_TAGS config) []
                 ++ [get_default (cfg_OWNER config) "DEFAULT_OWNER"])%list
    /\ SNOWFLAKE_CONN_ID p
       = get_default (cfg_SNOWFLAKE_CONN_ID config) "DEFAULT_CONNECTION"
    /\ readme_content p = readme.
Proof.
  unfold prepare.
  destruct (snowflake_ci_yml e) as [| |config]; try discriminate.
  destruct (connections e _) as [conn|]; [|discriminate].
  destruct (extra_database conn) as [database|]; [|discriminate].
  destruct (readme_md e) as [readme|]; [|discriminate].
  intros H. inversion H; subst; clear H. simpl.
  exists config, readme. repeat split.
Qed.

(** The task groups of a run that completes. *)
Lemma groups_completed (d : DAG) :
  result (generate e) = inr tt -> registered (generate e) = Some d ->
  dag_groups d = filter (is_dir e) target_subdirs.
Proof.
  intros Hres Hd. destruct (generate_registered e d Hd) as [p Hp].
  destruct (generate_dag p Hp) as [Hd' Hres'].
  pose proof (groups_loop_run e p) as Hrun.
  destruct (for_each target_subdirs (subdir_step e p) None (new_dag e p))
    as [[err|prev] d']; simpl in Hd', Hres'; [congruence|].
  congruence.
Qed.

End WholeDag.

(** X3. Whatever the loop does, and also when it aborts, the DAG keeps the
    attributes it was created with: its identifier is the name of the
    parent directory, an underscore and the name of the directory; its tags
    are the configured tags (none by default) followed by the owner
    ([DEFAULT_OWNER] by default); its documentation is the text of the
    description file; it starts one day before the run. Every unit names the
    same connection as the DAG, the configured one or [DEFAULT_CONNECTION]. *)
Theorem dag_attributes_kept :
  forall (e : Env) (d : DAG),
    registered (generate e) = Some d ->
    exists config readme,
      snowflake_ci_yml e = ConfigLoaded config
      /\ readme_md e = Some readme
      /\ dag_id d = parent_dir_name e ++ "_" ++ directory_name e
      /\ default_owner d = get_default (cfg_OWNER config) "DEFAULT_OWNER"
      /\ tags d = (get_default (cfg_TAGS config) []
                   ++ [get_default (cfg_OWNER config) "DEFAULT_OWNER"])%list
      /\ default_conn_id d
         = get_default (cfg_SNOWFLAKE_CONN_ID config) "DEFAULT_CONNECTION"
      /\ doc_md d = readme
      /\ start_date d = (today e - 1)%Z
      /\ (forall t, In t (tasks d) -> snowflake_conn_id t = default_conn_id d).
Proof.
  intros e d Hd. destruct (generate_registered e d Hd) as [p Hp].
  destruct (prepare_fields e p Hp)
    as (config & readme & Hc & Hr & Hid & Ho & Htags & Hconn & Hdoc).
  destruct (generate_dag e p Hp) as [Hd' _].
  assert (Hhead : header d = header (new_dag e p)).
  { assert (d = snd (for_each target_subdirs (subdir_step e p) None (new_dag e p)))
      as -> by congruence.
    apply keeps_header_for_each. intros s x. apply keeps_header_subdir_step. }
  unfold header in Hhead. simpl in Hhead.
  inversion Hhead as [[H1 H2 H3 H4 H5 H6 H7]].
  exists config, readme.
  rewrite H1, H2, H3, H5, H6, H7, Hid, Ho, Htags, Hconn, Hdoc.
  repeat split; auto.
  intros t Ht.
  destruct (registered_units e d t Hd Ht) as (p' & text & Hp' & _ & _ & _ & Hmake).
  assert (Heq : p' = p) by congruence.
  rewrite Hmake, Heq. simpl. exact Hconn.
Qed.

Lemma dag_attributes_witness :
  exists config readme,
    snowflake_ci_yml Examples.env0 = ConfigLoaded config
    /\ readme_md Examples.env0 = Some readme
    /\ dag_id (Examples.the_dag Examples.env0)
       = parent_dir_name Examples.env0 ++ "_" ++ directory_name Examples.env0
    /\ default_owner (Examples.the_dag Examples.env0)
       = get_default (cfg_OWNER config) "DEFAULT_OWNER"
    /\ tags (Examples.the_dag Examples.env0)
       = (get_default (cfg_TAGS config) []
          ++ [get_default (cfg_OWNER config) "DEFAULT_OWNER"])%list
    /\ default_conn_id (Examples.the_dag Examples.env0)
       = get_default (cfg_SNOWFLAKE_CONN_ID config) "DEFAULT_CONNECTION"
    /\ doc_md (Examples.the_dag Examples.env0) = readme
    /\ start_date (Examples.the_dag Examples.env0) = (today Examples.env0 - 1)%Z
    /\ (forall t, In t (tasks (Examples.the_dag Examples.env0)) ->
                  snowflake_conn_id t = default_conn_id (Examples.the_dag Examples.env0)).
Proof.
  exact (dag_attributes_kept Examples.env0 (Examples.the_dag Examples.env0) eq_refl).
Defined.

(** X4. A run that completes has created one task group for every one of
    the ten categories whose directory exists, in the fixed order, also for
    a directory without any [.sql] file. A run stopped by a file of category
    [c] has created the groups of the existing directories up to [c], the
    one of [c] last. *)
Theorem task_groups_of_existing_directories :
  forall (e : Env) (d : DAG),
    registered (generate e) = Some d ->
    (result (generate e) = inr tt ->
     dag_groups d = filter (is_dir e) target_subdirs)
    /\ (forall c f,
           result (generate e) = inl (SqlNotReadable c f) ->
           exists done rest,
             target_subdirs = (done ++ c :: rest)%list
             /\ is_dir e c = true
             /\ dag_groups d = (filter (is_dir e) done ++ [c])%list).
Proof.
  intros e d Hd. split; [intros Hres; now apply groups_completed|].
  intros c f Hres. destruct (generate_registered e d Hd) as [p Hp].
  destruct (generate_dag e p Hp) as [Hd' Hres'].
  pose proof (groups_loop_run e p) as Hrun.
  destruct (for_each target_subdirs (subdir_step e p) None (new_dag e p))
    as [[err|prev] d']; simpl in Hd', Hres'; [|congruence].
  destruct Hrun as (done & c' & rest & Hsplit & [f' Herr] & Hdir & Hg).
  assert (c' = c) by congruence. subst c'.
  exists done, rest. split; [exact Hsplit|]. split; [exact Hdir|]. congruence.
Qed.

Lemma task_groups_witness :
  (result (generate Examples.env0) = inr tt ->
   dag_groups (Examples.the_dag Examples.env0)
   = filter (is_dir Examples.env0) target_subdirs)
  /\ (forall c f,
         result (generate Examples.env0) = inl (SqlNotReadable c f) ->
         exists done rest,
           target_subdirs = (done ++ c :: rest)%list
           /\ is_dir Examples.env0 c = true
           /\ dag_groups (Examples.the_dag Examples.env0)
              = (filter (is_dir Examples.env0) done ++ [c])%list).
Proof.
  exact (task_groups_of_existing_directories Examples.env0
           (Examples.the_dag Examples.env0) eq_refl).
Defined.



(** ** Which units exist, and their identifiers *)

Section UnitFacts.

Lemma NoDup_pairs {A B : Type} (c : A) (l : list B) :
  NoDup l -> NoDup (map (pair c) l).
Proof.
  induction 1 as [|x r Hnotin _ IH]; simpl; constructor; [|exact IH].
  intros Hin. apply in_map_iff in Hin. destruct Hin as [y [Heq Hy]].
  inversion Heq; subst. contradiction.
Qed.

Lemma NoDup_plan_of (e : Env) (cs : list string) :
  NoDup cs -> (forall c, In c cs -> NoDup (sql_files e c)) -> NoDup (plan_of e cs).
Proof.
  induction 1 as [|c r Hnotin _ IH]; intros Hfiles; [constructor|].
  change (plan_of e (c :: r)) with (map (pair c) (sql_files e c) ++ plan_of e r)%list.
  apply NoDup_app.
  - apply NoDup_pairs. apply Hfiles. now left.
  - apply IH. intros c' Hc'. apply Hfiles. now right.
  - intros [c' f] Hin Hin'. apply in_map_iff in Hin. destruct Hin as [f' [Heq _]].
    inversion Heq; subst. apply plan_of_category in Hin'. simpl in Hin'.
    now destruct Hin'.
Qed.

Lemma substring_full (s : string) : substring 0 (String.length s) s = s.
Proof. induction s as [|c r IH]; simpl; [reflexivity | now rewrite IH]. Qed.

Lemma substring_split (s : string) :
  forall n, n <= String.length s ->
            s = substring 0 n s ++ substring n (String.length s - n) s.
Proof.
  induction s as [|c r IH]; intros [|n] Hn; simpl in *; try reflexivity; try lia.
  - now rewrite substring_full.
  - f_equal. apply IH. lia.
Qed.

(** [endswith] holds for the names that end with the suffix, and only for
    them. *)
Lemma endswith_split (s suffix : string) :
  PyStr.endswith s suffix = true -> exists stem, s = stem ++ suffix.
Proof.
  unfold PyStr.endswith. rewrite andb_true_iff. intros [Hlen Hsub].
  apply Nat.leb_le in Hlen. apply String.eqb_eq in Hsub.
  exists (substring 0 (String.length s - String.length suffix) s).
  pose proof (substring_split s (String.length s - String.length suffix)) as Hsplit.
  replace (String.length s - (String.length s - String.length suffix))
    with (String.length suffix) in Hsplit by lia.
  rewrite Hsub in Hsplit. apply Hsplit. lia.
Qed.

Lemma prefix_sql_inside (c : ascii) (r : string) :
  prefix ".sql" (String c r ++ ".sql") = true ->
  exists r', String c r = ".sql" ++ r'.
Proof.
  destruct r as [|a [|b [|d rest]]]; simpl append;
    repeat rewrite prefix_cons; rewrite ?andb_true_iff.
  - intros [_ [H _]]. discriminate H.
  - intros [_ [_ [H _]]]. discriminate H.
  - intros [_ [_ [_ [H _]]]]. discriminate H.
  - intros [H1 [H2 [H3 [H4 _]]]].
    apply Ascii.eqb_eq in H1, H2, H3, H4. subst. now exists rest.
Qed.

Lemma prefix_app_left (a x y : string) :
  prefix a x = true -> prefix a (x ++ y) = true.
Proof.
  revert x. induction a as [|c a IH]; intros x; [intros _; apply prefix_nil|].
  destruct x as [|d x]; [discriminate|].
  simpl append. rewrite !prefix_cons, !andb_true_iff. intros [H1 H2]. auto.
Qed.

(** Removing [.sql] from a name that ends in [.sql]: the result is never
    longer than the stem, and it is shorter when the stem holds [.sql]. *)
Lemma replace_sql_length (n : nat) :
  forall stem,
    String.length stem <= n ->
    String.length (PyStr.replace_from ".sql" "" 0 (stem ++ ".sql"))
    <= String.length stem
    /\ (PyStr.str_in ".sql" stem = true ->
        String.length (PyStr.replace_from ".sql" "" 0 (stem ++ ".sql"))
        < String.length stem).
Proof.
  induction n as [n IH] using lt_wf_ind. intros stem Hlen.
  destruct stem as [|c r].
  - split; [simpl; lia | discriminate].
  - change (PyStr.replace_from ".sql" "" 0 (String c r ++ ".sql"))
      with (if prefix ".sql" (String c r ++ ".sql")
            then "" ++ PyStr.replace_from ".sql" "" 3 (r ++ ".sql")
            else String c (PyStr.replace_from ".sql" "" 0 (r ++ ".sql"))).
    destruct (prefix ".sql" (String c r ++ ".sql")) eqn:Hpre.
    + destruct (prefix_sql_inside c r Hpre) as [r' Hr'].
      inversion Hr'; subst. simpl in Hlen.
      change (PyStr.replace_from ".sql" "" 3 (("sql" ++ r') ++ ".sql"))
        with (PyStr.replace_from ".sql" "" 0 (r' ++ ".sql")).
      destruct (IH (String.length r')) with (stem := r') as [Hle _]; [lia | lia |].
      simpl. split; [lia | intros _; lia].
    + assert (Hpre' : prefix ".sql" (String c r) = false).
      { destruct (prefix ".sql" (String c r)) eqn:H; [|reflexivity].
        apply (prefix_app_left ".sql" (String c r) ".sql") in H. congruence. }
      simpl in Hlen.
      destruct (IH (String.length r)) with (stem := r) as [Hle Hlt]; [lia | lia |].
      cbn [String.length]. split; [lia|].
      cbn [PyStr.str_in]. rewrite Hpre'. simpl orb. intros Hin.
      specialize (Hlt Hin). lia.
Qed.

Lemma replace_sql_stem (stem : string) :
  PyStr.str_in ".sql" stem = false ->
  PyStr.replace_from ".sql" "" 0 (stem ++ ".sql") = stem.
Proof.
  induction stem as [|c r IH]; [reflexivity|].
  cbn [PyStr.str_in]. rewrite orb_false_iff. intros [Hpre Hin].
  change (PyStr.replace_from ".sql" "" 0 (String c r ++ ".sql"))
    with (if prefix ".sql" (String c r ++ ".sql")
          then "" ++ PyStr.replace_from ".sql" "" 3 (r ++ ".sql")
          else String c (PyStr.replace_from ".sql" "" 0 (r ++ ".sql"))).
  destruct (prefix ".sql" (String c r ++ ".sql")) eqn:Happ.
  - destruct (prefix_sql_inside c r Happ) as [r' Hr'].
    rewrite Hr', (prefix_app_left ".sql" ".sql" r' eq_refl) in Hpre.
    discriminate Hpre.
  - now rewrite IH.
Qed.

(** Line 92 on a name [stem.sql]: the identifier is the stem exactly when
    the stem holds no [.sql]. *)
Lemma make_task_id_stem (stem : string) :
  make_task_id (stem ++ ".sql") = stem <-> PyStr.str_in ".sql" stem = false.
Proof.
  unfold make_task_id, PyStr.replace. split.
  - intros Heq. destruct (PyStr.str_in ".sql" stem) eqn:Hin; [|reflexivity].
    destruct (replace_sql_length (String.length stem) stem (le_n _)) as [_ Hlt].
    specialize (Hlt Hin). rewrite Heq in Hlt. lia.
  - apply replace_sql_stem.
Qed.

End UnitFacts.

(** X6. A generated pipeline has a unit for a file [f] of directory [c]
    exactly when [c] is one of the ten categories, its directory exists and
    lists [f], and the name of [f] ends in [.sql]; other entries, and
    directories outside the ten, yield nothing. When no directory lists an
    entry twice, no file has two units. *)
Theorem units_are_the_sql_entries :
  forall (e : Env) (d : DAG),
    result (generate e) = inr tt -> registered (generate e) = Some d ->
    (forall c f,
        In (c, f) (map unit_name (tasks d))
        <-> In c target_subdirs
            /\ exists entries,
                 listdir e c = Some entries /\ In f entries /\ is_sql f = true)
    /\ ((forall c entries, listdir e c = Some entries -> NoDup entries) ->
        NoDup (map unit_name (tasks d)))
    /\ (forall t, In t (tasks d) -> exists stem, op_file t = stem ++ ".sql").
Proof.
  intros e d Hres Hd.
  destruct (generate_success e d Hres Hd) as (p & prev & _ & Ht & _).
  assert (Hnames : map unit_name (tasks d) = plan e).
  { rewrite Ht. apply unit_names_plan. }
  assert (Hentries : forall c f,
             In f (sql_files e c)
             <-> exists entries,
                   listdir e c = Some entries /\ In f entries /\ is_sql f = true).
  { intros c f. split.
    - intros Hf.
      apply (Permutation_in f (Permutation_sym (sql_files_perm e c))) in Hf.
      unfold sql_entries in Hf. apply filter_In in Hf. destruct Hf as [Hf Hsql].
      destruct (listdir e c) as [entries|]; [|destruct Hf].
      exists entries. auto.
    - intros (entries & Hdir & Hf & Hsql).
      apply (Permutation_in f (sql_files_perm e c)).
      unfold sql_entries. rewrite Hdir. apply filter_In. now split. }
  split; [|split].
  - intros c f. rewrite Hnames. unfold plan. rewrite in_plan_of.
    now rewrite Hentries.
  - intros Hnodup. rewrite Hnames. apply NoDup_plan_of.
    + apply target_subdirs_NoDup.
    + intros c _. apply (Permutation_NoDup (sql_files_perm e c)).
      unfold sql_entries. apply NoDup_filter.
      destruct (listdir e c) as [entries|] eqn:Hdir; [|constructor].
      now apply (Hnodup c).
  - intros t Hin.
    destruct (registered_units e d t Hd Hin) as (_ & _ & _ & _ & Hsql & _).
    now apply endswith_split.
Qed.

Lemma units_are_the_sql_entries_witness :
  (forall c f,
      In (c, f) (map unit_name (tasks (Examples.the_dag Examples.env0)))
      <-> In c target_subdirs
          /\ exists entries,
               listdir Examples.env0 c = Some entries
               /\ In f entries /\ is_sql f = true)
  /\ NoDup (map unit_name (tasks (Examples.the_dag Examples.env0)))
  /\ (forall t, In t (tasks (Examples.the_dag Examples.env0)) ->
                exists stem, op_file t = stem ++ ".sql").
Proof.
  pose proof (units_are_the_sql_entries Examples.env0
                (Examples.the_dag Examples.env0) eq_refl eq_refl)
    as (Hiff & Hnodup & Hstem).
  split; [exact Hiff|]. split; [|exact Hstem].
  apply Hnodup. intros c entries. simpl.
  destruct (c =? "tables").
  { intros H. inversion H.
    repeat (constructor; [simpl; intuition discriminate|]). constructor. }
  destruct (c =? "views").
  { intros H. inversion H.
    repeat (constructor; [simpl; intuition discriminate|]). constructor. }
  destruct (c =? "stages"); intros H; inversion H. constructor.
Defined.

(** X7. The file of every unit is named [stem.sql] for some [stem], and the
    identifier of the unit is that stem exactly when the stem itself holds
    no [.sql]: for such names line 92 removes the extension and nothing
    else, and for all others the identifier is shorter than the stem. *)
Theorem task_id_is_stem_iff :
  forall (e : Env) (d : DAG) (t : Operator),
    registered (generate e) = Some d -> In t (tasks d) ->
    exists stem,
      op_file t = stem ++ ".sql"
      /\ (task_id t = stem <-> PyStr.str_in ".sql" stem = false)
      /\ String.length (task_id t) <= String.length stem.
Proof.
  intros e d t Hd Hin.
  destruct (registered_units e d t Hd Hin) as (p & text & _ & _ & Hsql & _ & Hmake).
  destruct (endswith_split (op_file t) ".sql" Hsql) as [stem Hstem].
  exists stem. split; [exact Hstem|].
  assert (Hid : task_id t = make_task_id (stem ++ ".sql")).
  { rewrite Hmake. cbn [task_id make_operator]. now rewrite Hstem. }
  rewrite Hid. split; [apply make_task_id_stem|].
  unfold make_task_id, PyStr.replace.
  apply (replace_sql_length (String.length stem) stem (le_n _)).
Qed.

Lemma task_id_is_stem_witness :
  exists stem,
    op_file (Examples.the_unit Examples.env0 0) = stem ++ ".sql"
    /\ (task_id (Examples.the_unit Examples.env0 0) = stem
        <-> PyStr.str_in ".sql" stem = false)
    /\ String.length (task_id (Examples.the_unit Examples.env0 0))
       <= String.length stem.
Proof.
  exact (task_id_is_stem_iff Examples.env0 (Examples.the_dag Examples.env0)
           (Examples.the_unit Examples.env0 0) eq_refl (or_introl eq_refl)).
Defined.

(** ** The text, the parameters and the task groups *)

Section TextFacts.

Lemma mentions_use_statement (schema text : string) :
  mentions_use (use_statement schema ++ text) = true.
Proof. reflexivity. Qed.

Lemma inject_schema_mentions (schema text : string) :
  mentions_use (inject_schema schema text) = true.
Proof.
  rewrite inject_schema_eq. destruct (mentions_use text) eqn:H; [exact H|].
  apply mentions_use_statement.
Qed.

End TextFacts.

(** X8. The text lines 98-99 hand to the operator always holds the letters
    [USE] (in some letter case), so that passing it through these lines a
    second time, with any schema, changes nothing: no second statement is
    put in front. *)
Theorem injected_text_is_stable :
  forall schema schema' text : string,
    PyStr.str_in "USE" (PyStr.upper (inject_schema schema text)) = true
    /\ inject_schema schema' (inject_schema schema text) = inject_schema schema text.
Proof.
  intros schema schema' text. split.
  - rewrite str_in_USE_upper. apply inject_schema_mentions.
  - rewrite (inject_schema_eq schema' (inject_schema schema text)).
    now rewrite inject_schema_mentions.
Qed.

Section ResolveFacts.

Variable e : Env.

Lemma in_get (d : PyDict.dict) (k v : string) :
  NoDup (PyDict.keys d) -> In (k, v) d -> PyDict.get k d = Some v.
Proof.
  induction d as [|[k' v'] r IH]; intros Hnd Hin; [destruct Hin|].
  inversion Hnd as [|? ? Hnotin Hnd']; subst. simpl.
  destruct Hin as [Heq|Hin].
  - inversion Heq; subst. now rewrite String.eqb_refl.
  - destruct (String.eqb_spec k k') as [->|Hne]; [|now apply IH].
    exfalso. apply Hnotin. unfold PyDict.keys. apply in_map_iff.
    exists (k', v). auto.
Qed.

Lemma fold_store_fresh (ps : list string) :
  forall acc,
    NoDup (PyDict.keys acc ++ ps) ->
    fold_left (store_param e) ps acc = (acc ++ map (resolved_entry e) ps)%list.
Proof.
  induction ps as [|k r IH]; intros acc Hnd; simpl; [now rewrite app_nil_r|].
  assert (Hfresh : ~ In k (PyDict.keys acc)).
  { apply NoDup_remove_2 in Hnd. intros H. apply Hnd. apply in_or_app. now left. }
  unfold store_param at 2. rewrite (set_fresh k _ acc Hfresh).
  rewrite IH.
  - rewrite <- app_assoc. reflexivity.
  - unfold PyDict.keys. rewrite map_app. simpl. now rewrite <- app_assoc.
Qed.

End ResolveFacts.

(** X9. The loop of lines 44-46 yields one entry per declared parameter
    name, also for a name declared more than once; every entry holds the
    value of the variable of that name, or the empty string when the
    variable is not set; and when no name is declared twice the entries
    stand in the order of the declaration. *)
Theorem resolve_params_entries :
  forall (e : Env) (param_keys : list string),
    NoDup (PyDict.keys (resolve_params e param_keys))
    /\ (forall k, In k (PyDict.keys (resolve_params e param_keys)) <-> In k param_keys)
    /\ (forall k v, In (k, v) (resolve_params e param_keys) ->
                    v = get_default (variables e k) "")
    /\ (NoDup param_keys ->
        resolve_params e param_keys = map (resolved_entry e) param_keys).
Proof.
  intros e ps. split; [apply resolve_params_NoDup|].
  split; [intros k; apply resolve_params_keys|]. split.
  - intros k v Hin.
    pose proof (in_get _ k v (resolve_params_NoDup e ps) Hin) as Hget.
    rewrite resolve_params_get in Hget.
    destruct (in_dec string_dec k ps); [|discriminate].
    inversion Hget. reflexivity.
  - intros Hnd. unfold resolve_params. now rewrite fold_store_fresh.
Qed.

Lemma resolve_params_entries_witness :
  NoDup (PyDict.keys (resolve_params Examples.env0 ["p1"; "p2"]))
  /\ (forall k, In k (PyDict.keys (resolve_params Examples.env0 ["p1"; "p2"]))
                <-> In k ["p1"; "p2"])
  /\ (forall k v, In (k, v) (resolve_params Examples.env0 ["p1"; "p2"]) ->
                  v = get_default (variables Examples.env0 k) "")
  /\ resolve_params Examples.env0 ["p1"; "p2"]
     = map (resolved_entry Examples.env0) ["p1"; "p2"].
Proof.
  pose proof (resolve_params_entries Examples.env0 ["p1"; "p2"])
    as (H1 & H2 & H3 & H4).
  split; [exact H1|]. split; [exact H2|]. split; [exact H3|].
  apply H4. repeat (constructor; [simpl; intuition discriminate|]). constructor.
Defined.

Section GroupFacts.

Variable E : list (task_ref * task_ref).
Hypothesis successor : forall x y, In (x, y) E -> y = S x.

Lemma leaves_block_len (a m : nat) :
  0 < m ->
  (forall i, S i < a + m -> In (i, S i) E) ->
  filter (fun i =>
            negb (existsb (fun ab => (fst ab =? i)%nat
                                     && Airflow.mem (snd ab) (seq a m)) E))
         (seq a m)
  = [a + m - 1].
Proof.
  intros Hm Hlinks.
  pose proof (leaves_block E successor a (a + m)) as H.
  replace (a + m - a) with m in H by lia. apply H; [lia | exact Hlinks].
Qed.

End GroupFacts.

(** X10. In a generated pipeline the units of a category that has [.sql]
    files are numbered consecutively, after the units of the categories
    before it, one per [.sql] entry of its directory; inside its task group
    exactly one unit has nothing upstream, the first, and exactly one has
    nothing downstream, the last. *)
Theorem category_is_one_block :
  forall (e : Env) (d : DAG) (before after : list string) (g : string),
    result (generate e) = inr tt -> registered (generate e) = Some d ->
    target_subdirs = (before ++ g :: after)%list ->
    has_files e g = true ->
    0 < List.length (sql_entries e g)
    /\ Airflow.members g d
       = seq (List.length (plan_of e before)) (List.length (sql_entries e g))
    /\ Airflow.roots g d = [List.length (plan_of e before)]
    /\ Airflow.leaves g d
       = [List.length (plan_of e before) + List.length (sql_entries e g) - 1].
Proof.
  intros e d before after g Hres Hd Hsplit Hhas.
  destruct (generate_success e d Hres Hd) as (p & prev & _ & Ht & _ & Hlin & _).
  pose proof (members_block e p d Ht before after g Hsplit) as Hm.
  rewrite <- (Permutation_length (sql_files_perm e g)) in Hm.
  set (a := List.length (plan_of e before)) in *.
  set (m := List.length (sql_entries e g)) in *.
  assert (Hpos : 0 < m).
  { unfold m. rewrite (Permutation_length (sql_files_perm e g)).
    unfold has_files in Hhas. destruct (sql_files e g); [discriminate | simpl; lia]. }
  assert (Hlen : a + m <= List.length (tasks d)).
  { rewrite Ht, length_map. unfold plan. rewrite Hsplit, plan_of_app, length_app.
    change (plan_of e (g :: after))
      with (map (pair g) (sql_files e g) ++ plan_of e after)%list.
    rewrite length_app, length_map.
    unfold a, m. rewrite (Permutation_length (sql_files_perm e g)). lia. }
  assert (Hsucc : forall x y, In (x, y) (edges d) -> y = S x).
  { intros x y H. now apply Hlin in H. }
  split; [exact Hpos|]. split; [exact Hm|]. split.
  - unfold Airflow.roots. rewrite Hm.
    apply roots_block; [exact Hsucc | exact Hpos |].
    intros i _ Hi. apply Hlin. lia.
  - unfold Airflow.leaves. rewrite Hm.
    apply leaves_block_len; [exact Hsucc | exact Hpos |].
    intros i Hi. apply Hlin. lia.
Qed.

Lemma category_is_one_block_witness :
  0 < List.length (sql_entries Examples.env0 "views")
  /\ Airflow.members "views" (Examples.the_dag Examples.env0)
     = seq (List.length (plan_of Examples.env0 ["file_formats"; "stages"; "tables"]))
           (List.length (sql_entries Examples.env0 "views"))
  /\ Airflow.roots "views" (Examples.the_dag Examples.env0)
     = [List.length (plan_of Examples.env0 ["file_formats"; "stages"; "tables"])]
  /\ Airflow.leaves "views" (Examples.the_dag Examples.env0)
     = [List.length (plan_of Examples.env0 ["file_formats"; "stages"; "tables"])
        + List.length (sql_entries Examples.env0 "views") - 1].
Proof.
  exact (category_is_one_block Examples.env0 (Examples.the_dag Examples.env0)
           ["file_formats"; "stages"; "tables"]
           ["sequences"; "streams"; "functions"; "procedures"; "tasks"; "dml"]
           "views" eq_refl eq_refl eq_refl eq_refl).
Defined.

